(** * ghappauth: GitHub App authentication, request executor and token cache

    A shallow embedding of the Go package [internal/auth]
    (http_client.go, github_app_auth.go, token_manager.go) and the
    properties of it that the specification states.

    Conventions.
    - Go [int], [uint] and [time.Duration] values are integers; no function
      embedded here does arithmetic that could leave the 64-bit range, so
      they are [Z] (status codes, durations, instants in nanoseconds) and
      [nat] (the attempt ceiling, which only counts loop iterations).
    - A Go [error] is a value of [error]; [nil] is [None] in an
      [option error].  [fmt.Errorf] with a [%w] verb keeps the wrapped error.
    - Calls that leave the package (the HTTP transport, JSON decoding, PEM and
      X.509 parsing, JWT signing) are Section variables: every theorem holds
      for every behaviour of them. *)

From Stdlib Require Import ZArith Lia Bool Ascii.
From stdpp Require Import base strings pretty list gmap.

Open Scope string_scope.

(** ** Errors *)

(** [errorString] is an error made of a message only ([fmt.Errorf] without
    [%w]); [RetryableError] is the package's own error type;
    [wrapError pre err post] is [fmt.Errorf (pre ++ "%w" ++ post) err]. *)
Inductive error : Type :=
| errorString (msg : string)
| RetryableError (StatusCode : Z)
| wrapError (pre : string) (err : error) (post : string).

(** The [Error()] method. *)
Fixpoint Error (e : error) : string :=
  match e with
  | errorString msg => msg
  | RetryableError code => "retryable status code: " ++ pretty code
  | wrapError pre err post => pre ++ Error err ++ post
  end.

(** The type assertion to a [RetryableError] pointer in the [RetryIf]
    option: it looks at the dynamic type of [err] itself, not through
    wrappers. *)
Definition isRetryableError (err : error) : bool :=
  match err with
  | RetryableError _ => true
  | _ => false
  end.

(** ** The retry library (github.com/avast/retry-go/v4)

    [retry.Do] with the options the package passes: [Attempts], [RetryIf] and
    [LastErrorOnly(true)].  The delay options only sleep between two
    attempts and are left out.  The retried closure mutates captured state,
    here threaded as [St].  [Attempts(0)] retries until the closure succeeds
    or [RetryIf] refuses, so the loop takes fuel; [None] is fuel exhausted. *)
Module retry.
Section Do.
Context {St : Type}.
Variable retryableFunc : St -> option error * St.
Variable attempts : nat.
Variable retryIf : error -> bool.

(** The loop for [attempts = 0]. *)
Fixpoint forever (fuel : nat) (s : St) : option (option error * St) :=
  match fuel with
  | O => None
  | S fuel' =>
      match retryableFunc s with
      | (None, s') => Some (None, s')
      | (Some err, s') =>
          if negb (retryIf err) then Some (Some err, s')
          else forever fuel' s'
      end
  end.

(** The loop for [attempts > 0]; [n] counts the failed attempts so far. *)
Fixpoint bounded (fuel : nat) (n : nat) (s : St) : option (option error * St) :=
  match fuel with
  | O => None
  | S fuel' =>
      match retryableFunc s with
      | (None, s') => Some (None, s')
      | (Some err, s') =>
          if negb (retryIf err) then Some (Some err, s')
          else if (n =? attempts - 1)%nat then Some (Some err, s')
          else bounded fuel' (S n) s'
      end
  end.

Definition Do (fuel : nat) (s : St) : option (option error * St) :=
  if (attempts =? 0)%nat then forever fuel s else bounded fuel 0 s.
End Do.
End retry.

(** ** http_client.go *)

(** [HTTPClientConfig]; its field [BackoffMultiplier], a float that no code
    of the package reads, is left out. *)
Record HTTPClientConfig : Type := {
  Timeout : Z;
  MaxRetries : nat;
  RetryDelay : Z;
  UserAgent : string
}.

Definition Second : Z := 1000000000.
Definition Minute : Z := 60 * Second.

Definition DefaultHTTPClientConfig : HTTPClientConfig :=
  {| Timeout := 30 * Second;
     MaxRetries := 3;
     RetryDelay := 1 * Second;
     UserAgent := "ghappauth/1.0" |}.

(** [HTTPClient]: the [http.Client] carries only the timeout. *)
Record HTTPClient : Type := {
  client_Timeout : Z;
  config : HTTPClientConfig
}.

Definition NewHTTPClient (cfg : option HTTPClientConfig) : HTTPClient :=
  let cfg := match cfg with None => DefaultHTTPClientConfig | Some c => c end in
  {| client_Timeout := Timeout cfg; config := cfg |}.

Record RequestConfig : Type := {
  Method : string;
  URL : string;
  AuthToken : string;
  Accept : string;
  ReqBody : string;
  ExpectedStatus : Z
}.

Record Request : Type := {
  req_Method : string;
  req_URL : string;
  req_Body : string;
  Header : gmap string string
}.

Record Response : Type := {
  StatusCode : Z;
  Body : string
}.

Definition shouldRetry (statusCode : Z) : bool :=
  (statusCode >=? 500)%Z || (statusCode =? 429)%Z || (statusCode =? 408)%Z.

(** What the closure of [doRequest] reads and writes: the captured variable
    [resp], and the two counters that make attempts observable: [tries]
    counts runs of the closure, [sent] counts calls of [c.client.Do] (what a
    test server counts). *)
Record reqState : Type := {
  resp : option Response;
  tries : nat;
  sent : nat
}.

Definition reqStart : reqState := {| resp := None; tries := 0; sent := 0 |}.

Section Executor.
(** [http.NewRequestWithContext] on method, URL and body: the request
    without headers, or an error. *)
Variable NewRequestWithContext : string -> string -> string -> Request + error.
(** [c.client.Do]: the answer to the request that is sent after [n]
    earlier ones; a transport failure (a cancelled context included) is
    an error. *)
Variable clientDo : nat -> Request -> Response + error.

Definition setHeader (k v : string) (req : Request) : Request :=
  {| req_Method := req_Method req; req_URL := req_URL req;
     req_Body := req_Body req; Header := <[k := v]> (Header req) |}.

(** The closure handed to [retry.Do]. *)
Definition attempt (c : HTTPClient) (cfg : RequestConfig) (s : reqState)
  : option error * reqState :=
  let s := {| resp := resp s; tries := S (tries s); sent := sent s |} in
  match NewRequestWithContext (Method cfg) (URL cfg) (ReqBody cfg) with
  | inr err => (Some (wrapError "failed to create request: " err ""), s)
  | inl req =>
      let req := if bool_decide (AuthToken cfg = "") then req
                 else setHeader "Authorization" ("Bearer " ++ AuthToken cfg) req in
      let req := if bool_decide (Accept cfg = "")
                 then setHeader "Accept" "application/vnd.github.v3+json" req
                 else setHeader "Accept" (Accept cfg) req in
      let req := setHeader "User-Agent" (UserAgent (config c)) req in
      let n := sent s in
      let s := {| resp := resp s; tries := tries s; sent := S n |} in
      match clientDo n req with
      | inr err => (Some (wrapError "failed to make request: " err ""), s)
      | inl response =>
          if shouldRetry (StatusCode response)
          then (Some (RetryableError (StatusCode response)), s)
          else (None, {| resp := Some response; tries := tries s; sent := sent s |})
      end
  end.

(** [doRequest]: the response or the error, with the final counters.
    [None] is the retry loop out of fuel. *)
Definition doRequest (fuel : nat) (c : HTTPClient) (cfg : RequestConfig)
  : option ((option Response + error) * reqState) :=
  match retry.Do (attempt c cfg) (MaxRetries (config c)) isRetryableError fuel reqStart with
  | None => None
  | Some (Some err, s) =>
      Some (inr (wrapError ("request failed after " ++ pretty (MaxRetries (config c))
                             ++ " attempts: ") err ""), s)
  | Some (None, s) => Some (inl (resp s), s)
  end.

(** [GitHubAPIError]: the fields the package reads. *)
Record GitHubAPIError : Type := { Message : string }.

Section Decode.
(** The caller's result shape and the two JSON decoders. *)
Context {R : Type}.
Variable decodeResult : string -> R + error.
Variable decodeAPIError : string -> GitHubAPIError + error.

(** [DoRequest]: the decoded result (what is written through [result])
    or the error.  The inner [None] stands for the panic of Go on a [nil]
    response without error, which [doRequest] never returns. *)
Definition DoRequest (fuel : nat) (c : HTTPClient) (cfg : RequestConfig)
  : option (option (R + error)) :=
  match doRequest fuel c cfg with
  | None => None
  | Some (inr err, _) => Some (Some (inr err))
  | Some (inl None, _) => Some None
  | Some (inl (Some rsp), _) =>
      if negb (ExpectedStatus cfg =? 0)%Z && negb (StatusCode rsp =? ExpectedStatus cfg)%Z
      then
        match decodeAPIError (Body rsp) with
        | inr err =>
            Some (Some (inr (wrapError ("GitHub API error: status " ++ pretty (StatusCode rsp)
                             ++ " (failed to decode error response: ") err ")")))
        | inl apiError =>
            Some (Some (inr (errorString ("GitHub API error: " ++ Message apiError
                             ++ " (status: " ++ pretty (StatusCode rsp) ++ ")"))))
        end
      else
        match decodeResult (Body rsp) with
        | inr err => Some (Some (inr (wrapError "failed to decode response: " err "")))
        | inl r => Some (Some (inl r))
        end
  end.
End Decode.
End Executor.

(** ** github_app_auth.go *)

(** [strconv.Atoi] of the Go library, on a 64-bit [int]: an optional sign,
    then at least one decimal digit and nothing else, the value within the
    [int] range.  The scan is [ParseUint]'s: a character that is no digit is
    a syntax error, a value past the unsigned 64-bit range is a range error,
    whichever comes first.  The error is a [*NumError], here a message. *)
Definition digitVal (ch : ascii) : option Z :=
  let n := Z.of_N (Ascii.N_of_ascii ch) in
  if (48 <=? n)%Z && (n <=? 57)%Z then Some (n - 48)%Z else None.

Inductive scanResult : Type :=
| scanOk (n : Z)
| scanSyntax
| scanRange.

Fixpoint scanDigits (s : string) (n : Z) : scanResult :=
  match s with
  | EmptyString => scanOk n
  | String ch s' =>
      match digitVal ch with
      | None => scanSyntax
      | Some d =>
          if (n * 10 + d <=? 2 ^ 64 - 1)%Z then scanDigits s' (n * 10 + d)%Z
          else scanRange
      end
  end.

(** The message quotes the input ([strconv.Quote], whose escapes of special
    characters are left out here). *)
Definition dquote : string := String (ascii_of_nat 34) EmptyString.

Definition numError (num reason : string) : error :=
  errorString ("strconv.Atoi: parsing " ++ dquote ++ num ++ dquote ++ ": " ++ reason).

Definition isSign (ch : ascii) : bool :=
  bool_decide (ch = "+"%char) || bool_decide (ch = "-"%char).

Definition Atoi (s : string) : Z + error :=
  match s with
  | EmptyString => inr (numError s "invalid syntax")
  | String c rest =>
      let digits := if isSign c then rest else s in
      match digits with
      | EmptyString => inr (numError s "invalid syntax")
      | _ =>
          match scanDigits digits 0 with
          | scanSyntax => inr (numError s "invalid syntax")
          | scanRange => inr (numError s "value out of range")
          | scanOk un =>
              let neg := bool_decide (c = "-"%char) in
              if negb neg && (2 ^ 63 <=? un)%Z then inr (numError s "value out of range")
              else if neg && (2 ^ 63 <? un)%Z then inr (numError s "value out of range")
              else inl (if neg then (- un)%Z else un)
          end
      end
  end.

Record GitHubAppConfig : Type := {
  AppID : string;
  PrivateKey : string;
  InstallationID : string;
  BaseURL : string
}.

(** A decoded PEM block: [block.Type] and [block.Bytes]. *)
Record pemBlock : Type := {
  blockType : string;
  blockBytes : string
}.

Section Credential.
(** [*rsa.PrivateKey]. *)
Variable rsaPrivateKey : Type.

(** What [x509.ParsePKCS8PrivateKey] returns as [any]: an RSA key, or a key
    of another algorithm (ECDSA, Ed25519, ECDH). *)
Inductive pkcs8Key : Type :=
| pkcs8RSA (k : rsaPrivateKey)
| pkcs8Other.

(** [pem.Decode] ([None] is the nil block), and the two X.509 parsers. *)
Variable pemDecode : string -> option pemBlock.
Variable ParsePKCS1PrivateKey : string -> rsaPrivateKey + error.
Variable ParsePKCS8PrivateKey : string -> pkcs8Key + error.

Definition parsePrivateKey (privateKeyPEM : string) : rsaPrivateKey + error :=
  match pemDecode privateKeyPEM with
  | None => inr (errorString "failed to decode PEM block")
  | Some block =>
      if bool_decide (blockType block = "RSA PRIVATE KEY") then
        match ParsePKCS1PrivateKey (blockBytes block) with
        | inr err => inr (wrapError "failed to parse RSA private key: " err "")
        | inl privateKey => inl privateKey
        end
      else if bool_decide (blockType block = "PRIVATE KEY") then
        match ParsePKCS8PrivateKey (blockBytes block) with
        | inr err => inr (wrapError "failed to parse PKCS8 private key: " err "")
        | inl (pkcs8RSA privateKey) => inl privateKey
        | inl pkcs8Other => inr (errorString "key is not an RSA private key")
        end
      else inr (errorString ("unsupported private key type: " ++ blockType block))
  end.

Record GitHubAppAuth : Type := {
  auth_config : GitHubAppConfig;
  privateKey : rsaPrivateKey;
  baseURL : string;
  httpClient : HTTPClient
}.

(** [NewGitHubAppAuth]; the argument is a pointer, [None] is nil. *)
Definition NewGitHubAppAuth (config : option GitHubAppConfig) : GitHubAppAuth + error :=
  match config with
  | None => inr (errorString "config cannot be nil")
  | Some config =>
      if bool_decide (AppID config = "") then inr (errorString "app_id is required")
      else if bool_decide (PrivateKey config = "") then inr (errorString "private_key is required")
      else if bool_decide (InstallationID config = "") then inr (errorString "installation_id is required")
      else
        match Atoi (AppID config) with
        | inr err => inr (wrapError "invalid app_id: " err "")
        | inl _ =>
            match Atoi (InstallationID config) with
            | inr err => inr (wrapError "invalid installation_id: " err "")
            | inl _ =>
                match parsePrivateKey (PrivateKey config) with
                | inr err => inr (wrapError "failed to parse private key: " err "")
                | inl privateKey =>
                    let baseURL := if bool_decide (BaseURL config = "")
                                   then "https://api.github.com" else BaseURL config in
                    inl {| auth_config := config;
                           privateKey := privateKey;
                           baseURL := baseURL;
                           httpClient := NewHTTPClient None |}
                end
            end
        end
  end.
End Credential.

(** ** token_manager.go

    The manager is shared by goroutines, so it is embedded as a transition
    system.  A [state] holds the fields of the [TokenManager], the
    [cachedToken] objects it has allocated, the clock, and for each
    goroutine the statement it runs next.  [step] runs one statement of one
    goroutine, or lets the surroundings act: an exchange returns, time
    passes, a new call starts.  [GetInstallationToken] is a call to the
    outside: it goes out in one step and returns, with any token or any
    error, in a later one. *)

(** [types.GitHubAppToken]: the fields the package reads or compares. *)
Record GitHubAppToken : Type := {
  Token : string;
  ExpiresAt : Z;
  RepositorySelection : string
}.

(** [IsTokenExpired] at the instant [now] that [time.Now()] returns;
    [t.Add(d)] is [t + d] and [t.After(u)] is [u < t]. *)
Definition IsTokenExpired (now : Z) (token : option GitHubAppToken) (buffer : Z) : bool :=
  match token with
  | None => true
  | Some token => (ExpiresAt token <? now + buffer)%Z
  end.

(** [cachedToken]; [renewMutex] is [true] while the mutex is locked. *)
Record cachedToken : Type := {
  token : option GitHubAppToken;
  createdAt : Z;
  lastUsed : Z;
  renewing : bool;
  renewMutex : bool
}.

(** The operations a goroutine can run on the manager. *)
Inductive call : Type :=
| GetToken
| InvalidateToken
| ClearCache
| SetRenewBuffer (buffer : Z).

(** What a finished call returned: [(token, nil)], [(nil, err)], nothing. *)
Inductive outcome : Type :=
| retToken (tok : option GitHubAppToken)
| retError (err : error)
| retVoid.

(** Where a goroutine stands: the statement it runs next, with its locals.
    Every Go statement is one atomic step; [cached] is a pointer, an index
    into the heap of entries. *)
Inductive pc : Type :=
(* GetToken *)
| GT_RLock                                  (* line 43 *)
| GT_lookup                                 (* line 44 *)
| GT_RUnlock (cached : option nat)          (* line 45, then the test of line 47 *)
| GT_touch (cached : nat)                   (* line 48 *)
| GT_check (cached : nat)                   (* line 50 *)
| GT_return (cached : nat)                  (* line 51 *)
(* renewToken *)
| RN_Lock (cached : nat)                    (* line 62 *)
| RN_recheck (cached : nat)                 (* line 65 *)
| RN_return (cached : nat)                  (* line 66 *)
| RN_mark (cached : nat)                    (* line 69 *)
| RN_call (cached : nat)                    (* line 71, the call goes out *)
| RN_wait (cached : nat)                    (* line 71, the exchange is in flight *)
| RN_fail (cached : nat) (err : error)      (* lines 73-74 *)
| RN_setToken (cached : nat) (newToken : GitHubAppToken)      (* line 77 *)
| RN_setCreatedAt (cached : nat) (newToken : GitHubAppToken)  (* line 78 *)
| RN_unmark (cached : nat) (newToken : GitHubAppToken)        (* lines 79-81 *)
| RN_Unlock (cached : nat) (r : outcome)    (* the deferred Unlock of line 63 *)
(* createNewToken *)
| CN_call                                   (* line 86, the call goes out *)
| CN_wait                                   (* line 86, the exchange is in flight *)
| CN_Lock (tok : GitHubAppToken)            (* line 91 *)
| CN_store (tok : GitHubAppToken)           (* lines 92-97 *)
| CN_Unlock (tok : GitHubAppToken)          (* lines 98-100 *)
(* InvalidateToken *)
| IV_Lock                                   (* line 105 *)
| IV_delete                                 (* line 106 *)
| IV_Unlock                                 (* line 107 *)
(* ClearCache *)
| CC_Lock                                   (* line 112 *)
| CC_clear                                  (* line 113 *)
| CC_Unlock                                 (* line 114 *)
(* SetRenewBuffer *)
| SB_set (buffer : Z)                       (* line 146 *)
| Done (r : outcome).

Definition start (c : call) : pc :=
  match c with
  | GetToken => GT_RLock
  | InvalidateToken => IV_Lock
  | ClearCache => CC_Lock
  | SetRenewBuffer buffer => SB_set buffer
  end.

(** The manager with its goroutines and its surroundings.  [cache] maps an
    installation ID to an entry of [heap] (the map never holds a nil
    pointer); [readers] and [writer] are the state of [tm.mutex]; [now] is
    the clock.  [exchanges] counts the calls of [GetInstallationToken] made so
    far and [issued] lists the tokens they returned: both are observations,
    no step reads them. *)
Record state : Type := mkState {
  cache : gmap string nat;
  readers : nat;
  writer : bool;
  renewBuffer : Z;
  heap : list cachedToken;
  threads : list pc;
  now : Z;
  exchanges : nat;
  issued : list GitHubAppToken
}.

(** What happens next: a new goroutine starts a call, goroutine [t] runs its
    statement, the exchange that [t] waits for returns [r], the clock moves
    on by [d] (not back).  The goroutines interleave statement by statement,
    and every statement sees the writes of all statements before it. *)
Inductive label : Type :=
| Spawn (c : call)
| Run (t : nat)
| Reply (t : nat) (r : GitHubAppToken + error)
| Tick (d : Z).

Section Manager.
(** [tm.auth.config.InstallationID], the one key the manager uses. *)
Variable installationID : string.

(** [NewTokenManager]. *)
Definition NewTokenManager (renewBuffer : Z) : state :=
  let renewBuffer := if (renewBuffer =? 0)%Z then (5 * Minute)%Z else renewBuffer in
  {| cache := ∅; readers := 0; writer := false; renewBuffer := renewBuffer;
     heap := []; threads := []; now := 0; exchanges := 0; issued := [] |}.

Definition goto (t : nat) (p : pc) (s : state) : state :=
  mkState (cache s) (readers s) (writer s) (renewBuffer s) (heap s)
          (<[t := p]> (threads s)) (now s) (exchanges s) (issued s).

Definition setEntry (e : nat) (c : cachedToken) (s : state) : state :=
  mkState (cache s) (readers s) (writer s) (renewBuffer s) (<[e := c]> (heap s))
          (threads s) (now s) (exchanges s) (issued s).

Definition setCache (m : gmap string nat) (s : state) : state :=
  mkState m (readers s) (writer s) (renewBuffer s) (heap s)
          (threads s) (now s) (exchanges s) (issued s).

Definition setMutex (r : nat) (w : bool) (s : state) : state :=
  mkState (cache s) r w (renewBuffer s) (heap s)
          (threads s) (now s) (exchanges s) (issued s).

(** [tm.mutex]: a reader enters unless a writer holds the lock, a writer
    enters when nobody holds it; [None] is a goroutine that has to wait
    (or, for an unlock of a lock not held, a run-time panic). *)
Definition RLock (s : state) : option state :=
  if writer s then None else Some (setMutex (S (readers s)) false s).

Definition RUnlock (s : state) : option state :=
  match readers s with
  | O => None
  | S r => Some (setMutex r (writer s) s)
  end.

Definition Lock (s : state) : option state :=
  if writer s || negb (readers s =? 0)%nat then None else Some (setMutex 0 true s).

Definition Unlock (s : state) : option state :=
  if writer s then Some (setMutex (readers s) false s) else None.

(** One statement of goroutine [t], which stands at [p]. *)
Definition runStatement (t : nat) (p : pc) (s : state) : option state :=
  match p with
  | GT_RLock => goto t GT_lookup <$> RLock s
  | GT_lookup => Some (goto t (GT_RUnlock (cache s !! installationID)) s)
  | GT_RUnlock cached =>
      goto t (match cached with Some e => GT_touch e | None => CN_call end) <$> RUnlock s
  | GT_touch e =>
      c ← heap s !! e;
      Some (goto t (GT_check e)
             (setEntry e {| token := token c; createdAt := createdAt c; lastUsed := now s;
                            renewing := renewing c; renewMutex := renewMutex c |} s))
  | GT_check e =>
      c ← heap s !! e;
      Some (goto t (if negb (IsTokenExpired (now s) (token c) (renewBuffer s))
                    then GT_return e else RN_Lock e) s)
  | GT_return e =>
      c ← heap s !! e;
      Some (goto t (Done (retToken (token c))) s)
  | RN_Lock e =>
      c ← heap s !! e;
      if renewMutex c then None
      else Some (goto t (RN_recheck e)
                  (setEntry e {| token := token c; createdAt := createdAt c; lastUsed := lastUsed c;
                                 renewing := renewing c; renewMutex := true |} s))
  | RN_recheck e =>
      c ← heap s !! e;
      Some (goto t (if negb (IsTokenExpired (now s) (token c) (renewBuffer s))
                    then RN_return e else RN_mark e) s)
  | RN_return e =>
      c ← heap s !! e;
      Some (goto t (RN_Unlock e (retToken (token c))) s)
  | RN_mark e =>
      c ← heap s !! e;
      Some (goto t (RN_call e)
             (setEntry e {| token := token c; createdAt := createdAt c; lastUsed := lastUsed c;
                            renewing := true; renewMutex := renewMutex c |} s))
  | RN_call e =>
      Some (goto t (RN_wait e)
             (mkState (cache s) (readers s) (writer s) (renewBuffer s) (heap s)
                      (threads s) (now s) (S (exchanges s)) (issued s)))
  | RN_wait e => None
  | RN_fail e err =>
      c ← heap s !! e;
      Some (goto t (RN_Unlock e (retError (wrapError "failed to renew token: " err "")))
             (setEntry e {| token := token c; createdAt := createdAt c; lastUsed := lastUsed c;
                            renewing := false; renewMutex := renewMutex c |} s))
  | RN_setToken e newToken =>
      c ← heap s !! e;
      Some (goto t (RN_setCreatedAt e newToken)
             (setEntry e {| token := Some newToken; createdAt := createdAt c; lastUsed := lastUsed c;
                            renewing := renewing c; renewMutex := renewMutex c |} s))
  | RN_setCreatedAt e newToken =>
      c ← heap s !! e;
      Some (goto t (RN_unmark e newToken)
             (setEntry e {| token := token c; createdAt := now s; lastUsed := lastUsed c;
                            renewing := renewing c; renewMutex := renewMutex c |} s))
  | RN_unmark e newToken =>
      c ← heap s !! e;
      Some (goto t (RN_Unlock e (retToken (Some newToken)))
             (setEntry e {| token := token c; createdAt := createdAt c; lastUsed := lastUsed c;
                            renewing := false; renewMutex := renewMutex c |} s))
  | RN_Unlock e r =>
      c ← heap s !! e;
      if renewMutex c
      then Some (goto t (Done r)
                  (setEntry e {| token := token c; createdAt := createdAt c; lastUsed := lastUsed c;
                                 renewing := renewing c; renewMutex := false |} s))
      else None
  | CN_call =>
      Some (goto t CN_wait
             (mkState (cache s) (readers s) (writer s) (renewBuffer s) (heap s)
                      (threads s) (now s) (S (exchanges s)) (issued s)))
  | CN_wait => None
  | CN_Lock tok => goto t (CN_store tok) <$> Lock s
  | CN_store tok =>
      let cached := {| token := Some tok; createdAt := now s; lastUsed := now s;
                       renewing := false; renewMutex := false |} in
      Some (goto t (CN_Unlock tok)
             (mkState (<[installationID := length (heap s)]> (cache s)) (readers s) (writer s)
                      (renewBuffer s) (heap s ++ [cached]) (threads s) (now s)
                      (exchanges s) (issued s)))
  | CN_Unlock tok => goto t (Done (retToken (Some tok))) <$> Unlock s
  | IV_Lock => goto t IV_delete <$> Lock s
  | IV_delete => Some (goto t IV_Unlock (setCache (delete installationID (cache s)) s))
  | IV_Unlock => goto t (Done retVoid) <$> Unlock s
  | CC_Lock => goto t CC_clear <$> Lock s
  | CC_clear => Some (goto t CC_Unlock (setCache ∅ s))
  | CC_Unlock => goto t (Done retVoid) <$> Unlock s
  | SB_set buffer =>
      Some (goto t (Done retVoid)
             (mkState (cache s) (readers s) (writer s) buffer (heap s)
                      (threads s) (now s) (exchanges s) (issued s)))
  | Done _ => None
  end.

(** The return of [GetInstallationToken] to the goroutine that waits for
    it, with the test of the error that follows the call. *)
Definition deliver (t : nat) (p : pc) (r : GitHubAppToken + error) (s : state) : option state :=
  let record (tok : GitHubAppToken) :=
    mkState (cache s) (readers s) (writer s) (renewBuffer s) (heap s)
            (threads s) (now s) (exchanges s) (issued s ++ [tok]) in
  match p, r with
  | RN_wait e, inr err => Some (goto t (RN_fail e err) s)
  | RN_wait e, inl newToken => Some (goto t (RN_setToken e newToken) (record newToken))
  | CN_wait, inr err =>
      Some (goto t (Done (retError (wrapError "failed to create new token: " err ""))) s)
  | CN_wait, inl tok => Some (goto t (CN_Lock tok) (record tok))
  | _, _ => None
  end.

(** One step of the system; [None] when the label cannot happen. *)
Definition step (s : state) (l : label) : option state :=
  match l with
  | Spawn c =>
      Some (mkState (cache s) (readers s) (writer s) (renewBuffer s) (heap s)
                    (threads s ++ [start c]) (now s) (exchanges s) (issued s))
  | Run t => p ← threads s !! t; runStatement t p s
  | Reply t r => p ← threads s !! t; deliver t p r s
  | Tick d =>
      if (0 <=? d)%Z
      then Some (mkState (cache s) (readers s) (writer s) (renewBuffer s) (heap s)
                         (threads s) (now s + d)%Z (exchanges s) (issued s))
      else None
  end.

(** A schedule, run from [s]. *)
Fixpoint run (ls : list label) (s : state) : option state :=
  match ls with
  | [] => Some s
  | l :: ls' => s' ← step s l; run ls' s'
  end.

(** The number of renewal exchanges in flight. *)
Definition renewalInFlight (p : pc) : bool :=
  match p with RN_wait _ => true | _ => false end.

Definition renewalsInFlight (s : state) : nat :=
  length (filter (λ p, renewalInFlight p = true) (threads s)).
End Manager.

(** *** What a goroutine holds and owes

    Read off the position of a goroutine: the entry whose renewal lock it
    holds (from the [Lock] of line 62 to the deferred [Unlock]); whether its
    call may still reach [GetInstallationToken]; whether its exchange is in
    flight; the fresh token it carries. *)
Definition holds (p : pc) : option nat :=
  match p with
  | RN_recheck e | RN_return e | RN_mark e | RN_call e | RN_wait e
  | RN_fail e _ | RN_setToken e _ | RN_setCreatedAt e _ | RN_unmark e _
  | RN_Unlock e _ => Some e
  | _ => None
  end.

Definition mayExchange (p : pc) : nat :=
  match p with
  | GT_RLock | GT_lookup | GT_RUnlock _ | GT_touch _ | GT_check _
  | RN_Lock _ | RN_recheck _ | RN_mark _ | RN_call _ | CN_call => 1
  | _ => 0
  end.

Definition inFlight (p : pc) : nat :=
  match p with
  | RN_wait _ | CN_wait => 1
  | _ => 0
  end.

Definition carries (p : pc) : option (option GitHubAppToken) :=
  match p with
  | RN_setToken _ tok | RN_setCreatedAt _ tok | RN_unmark _ tok
  | CN_Lock tok | CN_store tok | CN_Unlock tok => Some (Some tok)
  | RN_Unlock _ (retToken tok) | Done (retToken tok) => Some tok
  | _ => None
  end.

(** The [GetToken] calls a schedule starts. *)
Definition startsGetToken (l : label) : nat :=
  match l with
  | Spawn GetToken => 1
  | _ => 0
  end.

Definition getTokenCalls (ls : list label) : nat := sum_list_with startsGetToken ls.

(** *** The renewal locks

    What the lock discipline reads of a state: which renewal mutexes are
    locked, and which goroutine holds the mutex of which entry.  [lockMove]
    lists the ways in which a step can change the two. *)
Definition locksOf (s : state) : list bool := renewMutex <$> heap s.
Definition holdersOf (s : state) : list (option nat) := holds <$> threads s.

Definition disciplined (ms : list bool) (hs : list (option nat)) : Prop :=
  (forall t e, hs !! t = Some (Some e) -> ms !! e = Some true) /\
  (forall t1 t2 e, hs !! t1 = Some (Some e) -> hs !! t2 = Some (Some e) -> t1 = t2).

Inductive lockMove : list bool * list (option nat) -> list bool * list (option nat) -> Prop :=
| lm_same v : lockMove v v
| lm_alloc ms hs : lockMove (ms, hs) ((ms ++ [false])%list, hs)
| lm_spawn ms hs : lockMove (ms, hs) (ms, (hs ++ [None])%list)
| lm_acquire ms hs t e :
    ms !! e = Some false -> hs !! t = Some None ->
    lockMove (ms, hs) (<[e := true]> ms, <[t := Some e]> hs)
| lm_release ms hs t e :
    hs !! t = Some (Some e) ->
    lockMove (ms, hs) (<[e := false]> ms, <[t := None]> hs).

(** *** Tokens and exchanges

    A token is genuine when an exchange returned it.  [provenance]: every
    cached token and every token a goroutine carries or has returned is
    genuine.  [accounted]: the tokens returned and the exchanges in flight
    are no more than the exchanges made. *)
Definition genuine (iss : list GitHubAppToken) (o : option GitHubAppToken) : Prop :=
  exists tk, o = Some tk /\ tk ∈ iss.

Definition provenance (s : state) : Prop :=
  Forall (fun c => genuine (issued s) (token c)) (heap s) /\
  Forall (fun p => forall o, carries p = Some o -> genuine (issued s) o) (threads s).

Definition accounted (s : state) : Prop :=
  length (issued s) + sum_list_with inFlight (threads s) <= exchanges s.

(** ** What the claims leave aside

    *** The request that is sent

    [dressed c cfg base r]: [r] is the request [base] that
    [http.NewRequestWithContext] built, with the three headers that
    [doRequest] sets and no other change. *)
Definition dressed (c : HTTPClient) (cfg : RequestConfig) (base r : Request) : Prop :=
  req_Method r = req_Method base /\ req_URL r = req_URL base /\ req_Body r = req_Body base /\
  Header r !! "User-Agent" = Some (UserAgent (config c)) /\
  Header r !! "Accept" = Some (if bool_decide (Accept cfg = "")
                               then "application/vnd.github.v3+json" else Accept cfg) /\
  Header r !! "Authorization" = (if bool_decide (AuthToken cfg = "")
                                 then Header base !! "Authorization"
                                 else Some ("Bearer " ++ AuthToken cfg)) /\
  (forall k, k <> "User-Agent" -> k <> "Accept" -> k <> "Authorization" ->
             Header r !! k = Header base !! k).

(** The cause of a failed attempt, as the closure of [doRequest] words it. *)
Inductive cause : Type :=
| notBuilt (err : error)
| notSent (err : error)
| retryable (code : Z).

Definition causeError (k : cause) : error :=
  match k with
  | notBuilt err => wrapError "failed to create request: " err ""
  | notSent err => wrapError "failed to make request: " err ""
  | retryable code => RetryableError code
  end.

(** *** github_app_auth.go: the signed assertion and the three exchanges *)

(** [jwt.RegisteredClaims], the fields that [GenerateJWT] sets.  A
    [NumericDate] is an instant cut down to the whole second
    ([jwt.NewNumericDate] truncates to [jwt.TimePrecision], one second). *)
Record RegisteredClaims : Type := {
  Issuer : string;
  IssuedAt : Z;
  claims_ExpiresAt : Z;
  Subject : string
}.

Definition NewNumericDate (t : Z) : Z := (t / Second * Second)%Z.

(** [types.InstallationTokenResponse], the fields that [GitHubAppToken] keeps. *)
Record InstallationTokenResponse : Type := {
  tr_Token : string;
  tr_ExpiresAt : Z;
  tr_RepositorySelection : string
}.

Section Exchange.
Variable rsaPrivateKey : Type.
(** [jwt.NewWithClaims(jwt.SigningMethodRS256, claims).SignedString(key)]. *)
Variable SignedString : RegisteredClaims -> rsaPrivateKey -> string + error.
Variable NewRequestWithContext : string -> string -> string -> Request + error.
Variable clientDo : nat -> Request -> Response + error.
Variable decodeAPIError : string -> GitHubAPIError + error.
(** The JSON decoders of the three result shapes; [types.GitHubApp] and
    [types.GitHubAppInstallation] are handed back as they are decoded. *)
Variable decodeToken : string -> InstallationTokenResponse + error.
Variable GitHubApp : Type.
Variable decodeApp : string -> GitHubApp + error.
Variable GitHubAppInstallation : Type.
Variable decodeInstallation : string -> GitHubAppInstallation + error.

(** [GenerateJWT], at the instant [now] that [time.Now()] returns. *)
Definition GenerateJWT (now : Z) (g : GitHubAppAuth rsaPrivateKey) : string + error :=
  let claims := {| Issuer := AppID (auth_config _ g);
                   IssuedAt := NewNumericDate now;
                   claims_ExpiresAt := NewNumericDate (now + 10 * Minute);
                   Subject := AppID (auth_config _ g) |} in
  SignedString claims (privateKey _ g).

Definition tokenRequestConfig (g : GitHubAppAuth rsaPrivateKey) (jwt : string) : RequestConfig :=
  {| Method := "POST";
     URL := baseURL _ g ++ "/app/installations/" ++ InstallationID (auth_config _ g)
            ++ "/access_tokens";
     AuthToken := jwt; Accept := ""; ReqBody := "";
     ExpectedStatus := 201 |}.

(** [GetInstallationToken]; the outer [None] is the retry loop out of fuel,
    the inner one the panic of [DoRequest] on a nil response. *)
Definition GetInstallationToken (fuel : nat) (now : Z) (g : GitHubAppAuth rsaPrivateKey)
  : option (option (GitHubAppToken + error)) :=
  match GenerateJWT now g with
  | inr err => Some (Some (inr (wrapError "failed to generate JWT: " err "")))
  | inl jwt =>
      match DoRequest NewRequestWithContext clientDo decodeToken decodeAPIError
                      fuel (httpClient _ g) (tokenRequestConfig g jwt) with
      | None => None
      | Some None => Some None
      | Some (Some (inr err)) =>
          Some (Some (inr (wrapError "failed to get installation token: " err "")))
      | Some (Some (inl tokenResponse)) =>
          Some (Some (inl {| Token := tr_Token tokenResponse;
                             ExpiresAt := tr_ExpiresAt tokenResponse;
                             RepositorySelection := tr_RepositorySelection tokenResponse |}))
      end
  end.

Definition appRequestConfig (g : GitHubAppAuth rsaPrivateKey) (jwt : string) : RequestConfig :=
  {| Method := "GET"; URL := baseURL _ g ++ "/app";
     AuthToken := jwt; Accept := ""; ReqBody := "";
     ExpectedStatus := 200 |}.

Definition GetAppInfo (fuel : nat) (now : Z) (g : GitHubAppAuth rsaPrivateKey)
  : option (option (GitHubApp + error)) :=
  match GenerateJWT now g with
  | inr err => Some (Some (inr (wrapError "failed to generate JWT: " err "")))
  | inl jwt =>
      match DoRequest NewRequestWithContext clientDo decodeApp decodeAPIError
                      fuel (httpClient _ g) (appRequestConfig g jwt) with
      | None => None
      | Some None => Some None
      | Some (Some (inr err)) => Some (Some (inr (wrapError "failed to get app info: " err "")))
      | Some (Some (inl app)) => Some (Some (inl app))
      end
  end.

Definition installationRequestConfig (g : GitHubAppAuth rsaPrivateKey) (jwt : string)
  : RequestConfig :=
  {| Method := "GET";
     URL := baseURL _ g ++ "/app/installations/" ++ InstallationID (auth_config _ g);
     AuthToken := jwt; Accept := ""; ReqBody := "";
     ExpectedStatus := 200 |}.

Definition GetInstallation (fuel : nat) (now : Z) (g : GitHubAppAuth rsaPrivateKey)
  : option (option (GitHubAppInstallation + error)) :=
  match GenerateJWT now g with
  | inr err => Some (Some (inr (wrapError "failed to generate JWT: " err "")))
  | inl jwt =>
      match DoRequest NewRequestWithContext clientDo decodeInstallation decodeAPIError
                      fuel (httpClient _ g) (installationRequestConfig g jwt) with
      | None => None
      | Some None => Some None
      | Some (Some (inr err)) =>
          Some (Some (inr (wrapError "failed to get installation: " err "")))
      | Some (Some (inl installation)) => Some (Some (inl installation))
      end
  end.
End Exchange.

(** ** Scenarios

    Concrete surroundings, as the package's tests set them up: a request
    constructor, servers that answer by attempt number, decoders. *)

Definition plainRequest (method url body : string) : Request + error :=
  inl {| req_Method := method; req_URL := url; req_Body := body; Header := ∅ |}.

Definition invalidRequest (method url body : string) : Request + error :=
  inr (errorString ("net/http: invalid method " ++ method)).

(** A server that answers attempt [n] with the [n]-th status of [codes], and
    with [last] from then on. *)
Definition statusServer (codes : list Z) (last : Z) (n : nat) (req : Request)
  : Response + error :=
  inl {| StatusCode := nth n codes last; Body := "{}" |}.

Definition unreachableServer (n : nat) (req : Request) : Response + error :=
  inr (errorString "dial tcp: connection refused").

(** The server answers the request sent after [n] earlier ones with [rsp],
    whatever its headers. *)
Definition answers (clientDo : nat -> Request -> Response + error) (n : nat) (rsp : Response) : Prop :=
  forall req, clientDo n req = inl rsp.

Definition getRequest (expected : Z) : RequestConfig :=
  {| Method := "GET"; URL := "http://127.0.0.1:8080"; AuthToken := ""; Accept := "";
     ReqBody := ""; ExpectedStatus := expected |}.

(** A decoder that takes every body as it is, and one for error envelopes. *)
Definition rawBody (body : string) : string + error := inl body.

Definition envelope (body : string) : GitHubAPIError + error :=
  inl {| Message := "Bad Request" |}.

(** Stand-ins for the PEM and X.509 parsers, in which the key material is a
    word that names its container and its algorithm; the RSA key is [tt]. *)
Arguments pkcs8RSA {rsaPrivateKey} k.
Arguments pkcs8Other {rsaPrivateKey}.

Definition samplePem (s : string) : option pemBlock :=
  if bool_decide (s = "pkcs8:rsa") then Some {| blockType := "PRIVATE KEY"; blockBytes := "rsa" |}
  else if bool_decide (s = "pkcs8:ed25519") then Some {| blockType := "PRIVATE KEY"; blockBytes := "ed25519" |}
  else if bool_decide (s = "pkcs1:rsa") then Some {| blockType := "RSA PRIVATE KEY"; blockBytes := "rsa" |}
  else if bool_decide (s = "sec1:ec") then Some {| blockType := "EC PRIVATE KEY"; blockBytes := "ec" |}
  else None.

Definition samplePKCS1 (der : string) : unit + error :=
  if bool_decide (der = "rsa") then inl tt
  else inr (errorString "x509: failed to parse private key").

Definition samplePKCS8 (der : string) : pkcs8Key unit + error :=
  if bool_decide (der = "rsa") then inl (pkcs8RSA tt)
  else if bool_decide (der = "ed25519") then inl pkcs8Other
  else inr (errorString "x509: failed to parse private key").

Definition sampleConfig (appID key installationID : string) : GitHubAppConfig :=
  {| AppID := appID; PrivateKey := key; InstallationID := installationID; BaseURL := "" |}.

(** A state reached by a schedule from a new manager. *)
Definition reach (installationID : string) (renewBuffer : Z) (ls : list label) : state :=
  default (NewTokenManager renewBuffer) (run installationID ls (NewTokenManager renewBuffer)).

Definition Hour : Z := 60 * Minute.

Definition tokenA : GitHubAppToken :=
  {| Token := "ghs_A"; ExpiresAt := 1 * Hour; RepositorySelection := "all" |}.

Definition tokenB : GitHubAppToken :=
  {| Token := "ghs_B"; ExpiresAt := 1 * Hour; RepositorySelection := "all" |}.

Definition tokenC : GitHubAppToken :=
  {| Token := "ghs_C"; ExpiresAt := 2 * Hour; RepositorySelection := "all" |}.

(** Two first calls that overlap: each misses the cache before the other has
    stored its entry, and each makes its own exchange. *)
Definition racingFirstCalls : list label :=
  [Spawn GetToken; Spawn GetToken;
   Run 0; Run 0; Run 0;                          (* 0: lines 43-45, no entry *)
   Run 1; Run 1; Run 1;                          (* 1: lines 43-45, no entry *)
   Run 0; Run 1;                                 (* both call out, line 86 *)
   Reply 0 (inl tokenA); Run 0; Run 0; Run 0;    (* 0 stores tokenA, returns it *)
   Reply 1 (inl tokenB); Run 1; Run 1; Run 1].   (* 1 stores tokenB, returns it *)

(** The same race, under a renew buffer of two hours (every one-hour token
    is due at once), followed by two more calls: goroutine 2 finds the entry
    of goroutine 0 and renews it; goroutine 1 then replaces that entry in the
    map by its own, which goroutine 3 finds and renews. *)
Definition overlappingRenewals : list label :=
  [Spawn GetToken; Spawn GetToken;
   Run 0; Run 0; Run 0;                          (* 0: lines 43-45, no entry *)
   Run 1; Run 1; Run 1;                          (* 1: lines 43-45, no entry *)
   Run 0; Run 1;                                 (* both call out, line 86 *)
   Reply 0 (inl tokenA); Run 0; Run 0; Run 0;    (* 0 stores entry 0, returns *)
   Spawn GetToken;
   Run 2; Run 2; Run 2; Run 2; Run 2;            (* 2: lines 43-50, entry 0 is due *)
   Run 2; Run 2; Run 2; Run 2;                   (* 2: lines 62-71, exchange in flight *)
   Reply 1 (inl tokenB); Run 1; Run 1; Run 1;    (* 1 stores entry 1, returns *)
   Spawn GetToken;
   Run 3; Run 3; Run 3; Run 3; Run 3;            (* 3: lines 43-50, entry 1 is due *)
   Run 3; Run 3; Run 3; Run 3].                  (* 3: lines 62-71, exchange in flight *)

(** One call fills the cache; 56 minutes later the token is within the
    default buffer of five minutes, and two calls find it due. *)
Definition twoFindItDue : list label :=
  [Spawn GetToken;
   Run 0; Run 0; Run 0; Run 0;
   Reply 0 (inl tokenA); Run 0; Run 0; Run 0;
   Tick (56 * Minute);
   Spawn GetToken; Spawn GetToken;
   Run 1; Run 1; Run 1; Run 1; Run 1;            (* 1: lines 43-50, stands at line 62 *)
   Run 2; Run 2; Run 2; Run 2; Run 2].           (* 2: lines 43-50, stands at line 62 *)

(** Goroutine 1 then renews, while goroutine 2 waits for the lock. *)
Definition oneRenews : list label :=
  twoFindItDue ++
  [Run 1; Run 1; Run 1; Run 1;                   (* 1: lines 62-71 *)
   Reply 1 (inl tokenC);
   Run 1; Run 1; Run 1; Run 1].                  (* 1: lines 77-81 and the Unlock *)


(** Goroutine 1 has its renewal exchange in flight, goroutine 2 waits. *)
Definition oneInFlight : list label :=
  twoFindItDue ++ [Run 1; Run 1; Run 1; Run 1].

Definition exchangeDown : error := errorString "failed to get installation token".

(** Two calls one after the other: the second finds the entry of the first. *)
Definition callsInTurn : list label :=
  [Spawn GetToken;
   Run 0; Run 0; Run 0; Run 0;
   Reply 0 (inl tokenA); Run 0; Run 0; Run 0;
   Spawn GetToken;
   Run 1; Run 1; Run 1; Run 1; Run 1; Run 1].    (* 1: lines 43-51 *)

(** A request that carries a token, and the server of the package's test
    for the headers: it answers 200 to a request with the three headers it
    expects and fails on any other. *)
Definition tokenRequest : RequestConfig :=
  {| Method := "GET"; URL := "http://127.0.0.1:8080"; AuthToken := "test-token"; Accept := "";
     ReqBody := ""; ExpectedStatus := 0 |}.

Definition headerCheckingServer (n : nat) (req : Request) : Response + error :=
  if bool_decide (Header req !! "Authorization" = Some "Bearer test-token")
     && bool_decide (Header req !! "Accept" = Some "application/vnd.github.v3+json")
     && bool_decide (Header req !! "User-Agent" = Some "ghappauth/1.0")
  then inl {| StatusCode := 200; Body := "{}" |}
  else inr (errorString "unexpected headers").

Definition notFoundEnvelope (body : string) : GitHubAPIError + error :=
  inl {| Message := "Not Found" |}.

(** A credential, a signer that succeeds and one that fails, a server that
    answers every request with 201 and a token, and the decoder of its body. *)
Definition sampleAuth : GitHubAppAuth unit :=
  {| auth_config := sampleConfig "12345" "pkcs8:rsa" "67890";
     privateKey := tt;
     baseURL := "https://api.github.com";
     httpClient := NewHTTPClient None |}.

Definition sampleSigner (claims : RegisteredClaims) (key : unit) : string + error :=
  inl ("jwt." ++ Issuer claims).

Definition failingSigner (claims : RegisteredClaims) (key : unit) : string + error :=
  inr (errorString "crypto/rsa: message too long for RSA key size").

Definition tokenServer (n : nat) (req : Request) : Response + error :=
  inl {| StatusCode := 201; Body := "ghs_A" |}.

Definition sampleTokenDecoder (body : string) : InstallationTokenResponse + error :=
  inl {| tr_Token := body; tr_ExpiresAt := 1 * Hour; tr_RepositorySelection := "all" |}.

(** * Properties *)

(** ** The request executor *)

Lemma shouldRetry_true (code : Z) :
  shouldRetry code = true <-> (500 <= code \/ code = 429 \/ code = 408)%Z.
Proof. unfold shouldRetry. rewrite !orb_true_iff, Z.geb_le, !Z.eqb_eq. lia. Qed.

Lemma shouldRetry_false (code : Z) :
  shouldRetry code = false <-> (code < 500 /\ code <> 429 /\ code <> 408)%Z.
Proof.
  rewrite <- not_true_iff_false, shouldRetry_true. lia.
Qed.

Section ExecutorFacts.
Variable NewRequestWithContext : string -> string -> string -> Request + error.
Variable clientDo : nat -> Request -> Response + error.

Lemma attempt_accepts c cfg s req rsp :
  NewRequestWithContext (Method cfg) (URL cfg) (ReqBody cfg) = inl req ->
  answers clientDo (sent s) rsp ->
  shouldRetry (StatusCode rsp) = false ->
  attempt NewRequestWithContext clientDo c cfg s =
    (None, {| resp := Some rsp; tries := S (tries s); sent := S (sent s) |}).
Proof.
  intros Hnew Hans Hcode. unfold attempt. rewrite Hnew. cbn.
  rewrite Hans, Hcode. reflexivity.
Qed.

Lemma attempt_retries c cfg s req rsp :
  NewRequestWithContext (Method cfg) (URL cfg) (ReqBody cfg) = inl req ->
  answers clientDo (sent s) rsp ->
  shouldRetry (StatusCode rsp) = true ->
  attempt NewRequestWithContext clientDo c cfg s =
    (Some (RetryableError (StatusCode rsp)),
     {| resp := resp s; tries := S (tries s); sent := S (sent s) |}).
Proof.
  intros Hnew Hans Hcode. unfold attempt. rewrite Hnew. cbn.
  rewrite Hans, Hcode. reflexivity.
Qed.

Lemma attempt_no_request c cfg s err :
  NewRequestWithContext (Method cfg) (URL cfg) (ReqBody cfg) = inr err ->
  attempt NewRequestWithContext clientDo c cfg s =
    (Some (wrapError "failed to create request: " err ""),
     {| resp := resp s; tries := S (tries s); sent := sent s |}).
Proof. intros Hnew. unfold attempt. rewrite Hnew. reflexivity. Qed.

Lemma attempt_no_answer c cfg s req err :
  NewRequestWithContext (Method cfg) (URL cfg) (ReqBody cfg) = inl req ->
  (forall r, clientDo (sent s) r = inr err) ->
  attempt NewRequestWithContext clientDo c cfg s =
    (Some (wrapError "failed to make request: " err ""),
     {| resp := resp s; tries := S (tries s); sent := S (sent s) |}).
Proof. intros Hnew Hdo. unfold attempt. rewrite Hnew. cbn. rewrite Hdo. reflexivity. Qed.

(** With a positive attempt ceiling the retry loop ends within that many
    rounds: fuel from the ceiling on is never exhausted. *)
Lemma bounded_total f attempts retryIf :
  forall (fuel n : nat) (s : reqState),
    (n < attempts)%nat -> (attempts - n <= fuel)%nat ->
    retry.bounded (St := reqState) f attempts retryIf fuel n s <> None.
Proof.
  induction fuel as [|fuel IH]; intros n s Hn Hfuel; [lia|].
  cbn. destruct (f s) as [[err|] s']; [|discriminate].
  destruct (negb (retryIf err)); [discriminate|].
  destruct (Nat.eqb_spec n (attempts - 1)); [discriminate|].
  apply IH; lia.
Qed.

Lemma attempt_success c cfg s s' :
  attempt NewRequestWithContext clientDo c cfg s = (None, s') ->
  exists rsp, resp s' = Some rsp /\ shouldRetry (StatusCode rsp) = false.
Proof.
  unfold attempt.
  destruct (NewRequestWithContext _ _ _) as [req|err]; [|discriminate].
  match goal with |- context [clientDo ?n ?r] => destruct (clientDo n r) as [rsp|err] end;
    [|discriminate].
  destruct (shouldRetry (StatusCode rsp)) eqn:Hcode; [discriminate|].
  intros Heq. injection Heq as <-. exists rsp. auto.
Qed.

(** A response that the executor hands back is there, and its status is
    not one that is retried. *)
Lemma doRequest_response fuel c cfg o s :
  doRequest NewRequestWithContext clientDo fuel c cfg = Some (inl o, s) ->
  exists rsp, o = Some rsp /\ resp s = Some rsp /\ shouldRetry (StatusCode rsp) = false.
Proof.
  unfold doRequest, retry.Do.
  assert (forall k n s0 s1,
             retry.bounded (attempt NewRequestWithContext clientDo c cfg)
                           (MaxRetries (config c)) isRetryableError k n s0 = Some (None, s1) ->
             exists rsp, resp s1 = Some rsp /\ shouldRetry (StatusCode rsp) = false) as Hbounded.
  { induction k as [|k IH]; intros n s0 s1; cbn; [discriminate|].
    destruct (attempt _ _ c cfg s0) as [[err|] s0'] eqn:Hatt.
    - destruct (negb (isRetryableError err)); [discriminate|].
      destruct (n =? MaxRetries (config c) - 1)%nat; [discriminate|]. apply IH.
    - intros Heq. injection Heq as <-. eapply attempt_success, Hatt. }
  assert (forall k s0 s1,
             retry.forever (attempt NewRequestWithContext clientDo c cfg)
                           isRetryableError k s0 = Some (None, s1) ->
             exists rsp, resp s1 = Some rsp /\ shouldRetry (StatusCode rsp) = false) as Hforever.
  { induction k as [|k IH]; intros s0 s1; cbn; [discriminate|].
    destruct (attempt _ _ c cfg s0) as [[err|] s0'] eqn:Hatt.
    - destruct (negb (isRetryableError err)); [discriminate|]. apply IH.
    - intros Heq. injection Heq as <-. eapply attempt_success, Hatt. }
  destruct (MaxRetries (config c) =? 0)%nat.
  - destruct (retry.forever _ _ fuel reqStart) as [[[err|] s1]|] eqn:Hloop; try discriminate.
    intros Heq. injection Heq as <- <-.
    destruct (Hforever _ _ _ Hloop) as [rsp [Hr Hc]]. exists rsp. auto.
  - destruct (retry.bounded _ _ _ fuel 0 reqStart) as [[[err|] s1]|] eqn:Hloop; try discriminate.
    intros Heq. injection Heq as <- <-.
    destruct (Hbounded _ _ _ _ Hloop) as [rsp [Hr Hc]]. exists rsp. auto.
Qed.

Lemma doRequest_total fuel c cfg :
  (0 < MaxRetries (config c))%nat -> (MaxRetries (config c) <= fuel)%nat ->
  doRequest NewRequestWithContext clientDo fuel c cfg <> None.
Proof.
  intros Hpos Hfuel. unfold doRequest, retry.Do.
  destruct (Nat.eqb_spec (MaxRetries (config c)) 0); [lia|].
  pose proof (bounded_total (attempt NewRequestWithContext clientDo c cfg) (MaxRetries (config c)) isRetryableError
                fuel 0 reqStart Hpos ltac:(lia)) as Hb.
  destruct (retry.bounded _ _ _ _ _ _) as [[[err|] s]|]; congruence.
Qed.

(** C6: the retry predicate holds exactly of the codes from 500 on, 429
    and 408; a response with any other code ends the request at the
    attempt that received it, and is handed back as it is. *)
Theorem retryable_iff_5xx_429_408 (code : Z) :
  (shouldRetry code = true <-> (500 <= code \/ code = 429 \/ code = 408)%Z) /\
  forall fuel c cfg req rsp,
    StatusCode rsp = code ->
    ~ (500 <= code \/ code = 429 \/ code = 408)%Z ->
    NewRequestWithContext (Method cfg) (URL cfg) (ReqBody cfg) = inl req ->
    answers clientDo 0 rsp ->
    doRequest NewRequestWithContext clientDo (S fuel) c cfg =
      Some (inl (Some rsp), {| resp := Some rsp; tries := 1; sent := 1 |}).
Proof.
  split; [apply shouldRetry_true|].
  intros fuel c cfg req rsp <- Hcode Hnew Hans.
  assert (shouldRetry (StatusCode rsp) = false) as Hno.
  { apply shouldRetry_false. lia. }
  unfold doRequest, retry.Do.
  destruct (MaxRetries (config c) =? 0)%nat; cbn [retry.forever retry.bounded];
    rewrite (attempt_accepts c cfg reqStart req rsp Hnew Hans Hno); reflexivity.
Qed.

(** C10: whatever error the executor returns, it is the error of the last
    attempt wrapped in [request failed after N attempts], with [N] the
    configured ceiling; a request that cannot be built, or that the
    transport fails, is tried once and reported with the same [N]. *)
Theorem failure_names_the_ceiling fuel c cfg :
  (forall err s,
      doRequest NewRequestWithContext clientDo fuel c cfg = Some (inr err, s) ->
      exists inner,
        err = wrapError ("request failed after " ++ pretty (MaxRetries (config c)) ++ " attempts: ")
                        inner "") /\
  (forall e,
      NewRequestWithContext (Method cfg) (URL cfg) (ReqBody cfg) = inr e ->
      doRequest NewRequestWithContext clientDo (S fuel) c cfg =
        Some (inr (wrapError ("request failed after " ++ pretty (MaxRetries (config c)) ++ " attempts: ")
                             (wrapError "failed to create request: " e "") ""),
              {| resp := None; tries := 1; sent := 0 |})) /\
  (forall req e,
      NewRequestWithContext (Method cfg) (URL cfg) (ReqBody cfg) = inl req ->
      (forall r, clientDo 0 r = inr e) ->
      doRequest NewRequestWithContext clientDo (S fuel) c cfg =
        Some (inr (wrapError ("request failed after " ++ pretty (MaxRetries (config c)) ++ " attempts: ")
                             (wrapError "failed to make request: " e "") ""),
              {| resp := None; tries := 1; sent := 1 |})).
Proof.
  split; [|split].
  - intros err s. unfold doRequest.
    destruct (retry.Do _ _ _ _ _) as [[[inner|] s']|]; intros Heq; inversion Heq; subst.
    eexists; reflexivity.
  - intros e Hnew. unfold doRequest, retry.Do.
    destruct (MaxRetries (config c) =? 0)%nat; cbn [retry.forever retry.bounded];
      rewrite (attempt_no_request c cfg reqStart e Hnew); reflexivity.
  - intros req e Hnew Hdo. unfold doRequest, retry.Do.
    destruct (MaxRetries (config c) =? 0)%nat; cbn [retry.forever retry.bounded];
      rewrite (attempt_no_answer c cfg reqStart req e Hnew Hdo); reflexivity.
Qed.
End ExecutorFacts.

Section ExecutorScenarios.
Variable NewRequestWithContext : string -> string -> string -> Request + error.
Variable clientDo : nat -> Request -> Response + error.


(** C7, as the code has it: with the default ceiling of 3, a server that
    answers 500, 500, 200 is asked three times and its third answer is
    returned; a server that answers 400 is asked once and that answer is
    returned without error ([DoRequest] turns it into a failure, without
    another attempt, when an expected status other than 400 was declared);
    a server that answers every attempt with a retryable status is asked
    three times, and the failure names the 3 attempts. *)
Theorem default_retry_scenarios fuel cfg req :
  (3 <= fuel)%nat ->
  NewRequestWithContext (Method cfg) (URL cfg) (ReqBody cfg) = inl req ->
  (forall r0 r1 r2,
      answers clientDo 0 r0 -> answers clientDo 1 r1 -> answers clientDo 2 r2 ->
      StatusCode r0 = 500%Z -> StatusCode r1 = 500%Z -> StatusCode r2 = 200%Z ->
      doRequest NewRequestWithContext clientDo fuel (NewHTTPClient None) cfg =
        Some (inl (Some r2), {| resp := Some r2; tries := 3; sent := 3 |})) /\
  (forall r0,
      answers clientDo 0 r0 -> StatusCode r0 = 400%Z ->
      doRequest NewRequestWithContext clientDo fuel (NewHTTPClient None) cfg =
        Some (inl (Some r0), {| resp := Some r0; tries := 1; sent := 1 |}) /\
      forall (R : Type) (decodeResult : string -> R + error) decodeAPIError,
        ExpectedStatus cfg <> 0%Z -> ExpectedStatus cfg <> 400%Z ->
        exists err,
          DoRequest NewRequestWithContext clientDo decodeResult decodeAPIError
                    fuel (NewHTTPClient None) cfg = Some (Some (inr err))) /\
  ((forall n r, exists rsp, clientDo n r = inl rsp /\ shouldRetry (StatusCode rsp) = true) ->
   exists code,
     shouldRetry code = true /\
     doRequest NewRequestWithContext clientDo fuel (NewHTTPClient None) cfg =
       Some (inr (wrapError "request failed after 3 attempts: " (RetryableError code) ""),
             {| resp := None; tries := 3; sent := 3 |})).
Proof.
  intros Hfuel Hnew.
  destruct fuel as [|[|[|fuel]]]; try lia. clear Hfuel.
  split; [|split].
  - intros r0 r1 r2 H0 H1 H2 E0 E1 E2.
    unfold doRequest, retry.Do.
    cbn [NewHTTPClient config MaxRetries DefaultHTTPClientConfig Nat.eqb retry.bounded].
    rewrite (attempt_retries _ _ _ cfg reqStart req r0 Hnew H0) by (rewrite E0; reflexivity).
    cbn [negb isRetryableError Nat.eqb Nat.sub reqStart tries sent resp].
    rewrite (attempt_retries _ _ _ cfg {| resp := None; tries := 1; sent := 1 |} req r1 Hnew H1)
      by (rewrite E1; reflexivity).
    cbn [negb isRetryableError Nat.eqb Nat.sub reqStart tries sent resp].
    rewrite (attempt_accepts _ _ _ cfg {| resp := None; tries := 2; sent := 2 |} req r2 Hnew H2)
      by (rewrite E2; reflexivity).
    reflexivity.
  - intros r0 H0 E0.
    assert (doRequest NewRequestWithContext clientDo (S (S (S fuel))) (NewHTTPClient None) cfg =
              Some (inl (Some r0), {| resp := Some r0; tries := 1; sent := 1 |})) as Hexec.
    { unfold doRequest, retry.Do.
      cbn [NewHTTPClient config MaxRetries DefaultHTTPClientConfig Nat.eqb retry.bounded].
      rewrite (attempt_accepts _ _ _ cfg reqStart req r0 Hnew H0) by (rewrite E0; reflexivity).
      reflexivity. }
    split; [exact Hexec|].
    intros R decodeResult decodeAPIError Hne0 Hne400.
    unfold DoRequest. rewrite Hexec, E0.
    destruct (Z.eqb_spec (ExpectedStatus cfg) 0); [contradiction|].
    destruct (Z.eqb_spec 400 (ExpectedStatus cfg)); [congruence|].
    cbn. destruct (decodeAPIError (Body r0)); eexists; reflexivity.
  - intros Hall.
    destruct (Hall 0%nat req) as [r0 [_ _]].
    unfold doRequest, retry.Do.
    cbn [NewHTTPClient config MaxRetries DefaultHTTPClientConfig Nat.eqb retry.bounded].
    unfold attempt at 1. rewrite Hnew. cbn.
    match goal with |- context [clientDo 0 ?r] => destruct (Hall 0%nat r) as [a0 [-> ->]] end.
    cbn.
    unfold attempt at 1. rewrite Hnew. cbn.
    match goal with |- context [clientDo 1 ?r] => destruct (Hall 1%nat r) as [a1 [-> ->]] end.
    cbn.
    unfold attempt at 1. rewrite Hnew. cbn.
    match goal with |- context [clientDo 2 ?r] => destruct (Hall 2%nat r) as [a2 [-> Hc]] end.
    rewrite Hc. cbn.
    exists (StatusCode a2). split; [exact Hc | reflexivity].
Qed.
End ExecutorScenarios.

Lemma retryable_iff_5xx_429_408_witness :
  doRequest plainRequest (statusServer [] 404) 1 (NewHTTPClient None) (getRequest 0) =
    Some (inl (Some {| StatusCode := 404; Body := "{}" |}),
          {| resp := Some {| StatusCode := 404; Body := "{}" |}; tries := 1; sent := 1 |}).
Proof.
  refine (proj2 (retryable_iff_5xx_429_408 plainRequest (statusServer [] 404) 404)
            0%nat (NewHTTPClient None) (getRequest 0) _
            {| StatusCode := 404; Body := "{}" |} eq_refl _ eq_refl _).
  - lia.
  - intros req. reflexivity.
Defined.

Lemma failure_names_the_ceiling_witness :
  doRequest invalidRequest (statusServer [] 200) 1 (NewHTTPClient None) (getRequest 0) =
    Some (inr (wrapError "request failed after 3 attempts: "
                 (wrapError "failed to create request: "
                    (errorString "net/http: invalid method GET") "") ""),
          {| resp := None; tries := 1; sent := 0 |}) /\
  doRequest plainRequest unreachableServer 1 (NewHTTPClient None) (getRequest 0) =
    Some (inr (wrapError "request failed after 3 attempts: "
                 (wrapError "failed to make request: "
                    (errorString "dial tcp: connection refused") "") ""),
          {| resp := None; tries := 1; sent := 1 |}).
Proof.
  split.
  - exact (proj1 (proj2 (failure_names_the_ceiling invalidRequest (statusServer [] 200)
                           0%nat (NewHTTPClient None) (getRequest 0))) _ eq_refl).
  - refine (proj2 (proj2 (failure_names_the_ceiling plainRequest unreachableServer
                            0%nat (NewHTTPClient None) (getRequest 0))) _ _ eq_refl _).
    intros r. reflexivity.
Defined.

(** C7, as the spec words it, fails on the 400 case: the executor under the
    default configuration hands the 400 response back, and no error; with no
    expected status declared, [DoRequest] decodes its body and returns no
    error either. *)
Lemma status_400_is_returned_not_failed :
  doRequest plainRequest (statusServer [] 400) 3 (NewHTTPClient None) (getRequest 0) =
    Some (inl (Some {| StatusCode := 400; Body := "{}" |}),
          {| resp := Some {| StatusCode := 400; Body := "{}" |}; tries := 1; sent := 1 |}) /\
  DoRequest plainRequest (statusServer [] 400) rawBody envelope
            3 (NewHTTPClient None) (getRequest 0) = Some (Some (inl "{}")).
Proof. split; vm_compute; reflexivity. Qed.

Lemma default_retry_scenarios_witness :
  doRequest plainRequest (statusServer [500; 500]%Z 200) 3 (NewHTTPClient None) (getRequest 0) =
    Some (inl (Some {| StatusCode := 200; Body := "{}" |}),
          {| resp := Some {| StatusCode := 200; Body := "{}" |}; tries := 3; sent := 3 |}) /\
  (exists err,
      DoRequest plainRequest (statusServer [] 400) rawBody envelope
                3 (NewHTTPClient None) (getRequest 200) = Some (Some (inr err))) /\
  (exists code,
      shouldRetry code = true /\
      doRequest plainRequest (statusServer [] 503) 3 (NewHTTPClient None) (getRequest 0) =
        Some (inr (wrapError "request failed after 3 attempts: " (RetryableError code) ""),
              {| resp := None; tries := 3; sent := 3 |})).
Proof.
  split; [|split].
  - refine (proj1 (default_retry_scenarios plainRequest (statusServer [500; 500]%Z 200)
                     3 (getRequest 0) _ (le_n 3) eq_refl)
              {| StatusCode := 500; Body := "{}" |} {| StatusCode := 500; Body := "{}" |}
              {| StatusCode := 200; Body := "{}" |} _ _ _ eq_refl eq_refl eq_refl);
      intros req; reflexivity.
  - refine (proj2 (proj1 (proj2 (default_retry_scenarios plainRequest (statusServer [] 400)
                                   3 (getRequest 200) _ (le_n 3) eq_refl))
                     {| StatusCode := 400; Body := "{}" |} _ eq_refl)
              string rawBody envelope _ _).
    + intros req. reflexivity.
    + cbn. lia.
    + cbn. lia.
  - refine (proj2 (proj2 (default_retry_scenarios plainRequest (statusServer [] 503)
                            3 (getRequest 0) _ (le_n 3) eq_refl)) _).
    intros n r. eexists. split; [reflexivity|].
    unfold statusServer. cbn. destruct n as [|[|n]]; reflexivity.
Defined.

Section NoExpectedStatus.
Variable NewRequestWithContext : string -> string -> string -> Request + error.
Variable clientDo : nat -> Request -> Response + error.
Context {R : Type}.
Variable decodeResult : string -> R + error.
Variable decodeAPIError : string -> GitHubAPIError + error.

(** C9: with [ExpectedStatus] left at 0 the status of the response is not
    looked at: whatever response the executor hands back (its status is one
    that is not retried, and can be any such, 404 included), its body is
    decoded into the caller's result, and [DoRequest] returns no error when
    that decoding succeeds (and the decoding error, wrapped, when it does
    not). *)
Theorem no_expected_status_no_validation fuel c cfg rsp s :
  ExpectedStatus cfg = 0%Z ->
  doRequest NewRequestWithContext clientDo fuel c cfg = Some (inl (Some rsp), s) ->
  shouldRetry (StatusCode rsp) = false /\
  DoRequest NewRequestWithContext clientDo decodeResult decodeAPIError fuel c cfg =
    match decodeResult (Body rsp) with
    | inl r => Some (Some (inl r))
    | inr err => Some (Some (inr (wrapError "failed to decode response: " err "")))
    end.
Proof.
  intros Hzero Hexec. split.
  - destruct (doRequest_response _ _ _ _ _ _ _ Hexec) as [rsp' [Heq [_ Hcode]]].
    injection Heq as ->. exact Hcode.
  - unfold DoRequest. rewrite Hexec, Hzero. cbn.
    destruct (decodeResult (Body rsp)); reflexivity.
Qed.
End NoExpectedStatus.

Lemma no_expected_status_no_validation_witness :
  DoRequest plainRequest (statusServer [] 404) rawBody envelope 3 (NewHTTPClient None) (getRequest 0) =
    Some (Some (inl "{}")).
Proof.
  exact (proj2 (no_expected_status_no_validation plainRequest (statusServer [] 404) rawBody envelope
                  3 (NewHTTPClient None) (getRequest 0) {| StatusCode := 404; Body := "{}" |}
                  {| resp := Some {| StatusCode := 404; Body := "{}" |}; tries := 1; sent := 1 |}
                  eq_refl eq_refl)).
Defined.

(** ** Expiry *)

(** C3, as the spec words it, fails at the boundary: a token that expires
    exactly at [now + buffer] is not expired for [IsTokenExpired]. *)
Lemma not_expired_at_the_boundary :
  IsTokenExpired 0 (Some {| Token := "ghs_x"; ExpiresAt := 5 * Minute; RepositorySelection := "all" |})
                 (5 * Minute) = false /\
  (0 + 5 * Minute >= 5 * Minute)%Z.
Proof. split; [reflexivity | lia]. Qed.

(** C3, as the code has it: a nil token is expired for every buffer, and a
    token is expired exactly when [now + buffer] is strictly after its
    [ExpiresAt]; at equality it is not expired. *)
Theorem expired_iff_strictly_after (now buffer : Z) :
  IsTokenExpired now None buffer = true /\
  (forall T, IsTokenExpired now (Some T) buffer = true <-> (now + buffer > ExpiresAt T)%Z) /\
  (forall T, (now + buffer)%Z = ExpiresAt T -> IsTokenExpired now (Some T) buffer = false).
Proof.
  split; [reflexivity|]. split.
  - intros T. unfold IsTokenExpired. rewrite Z.ltb_lt. lia.
  - intros T Heq. unfold IsTokenExpired. rewrite Z.ltb_ge. lia.
Qed.

Lemma expired_iff_strictly_after_witness :
  IsTokenExpired 0 (Some {| Token := "ghs_x"; ExpiresAt := 5 * Minute; RepositorySelection := "all" |})
                 (5 * Minute) = false.
Proof.
  exact (proj2 (proj2 (expired_iff_strictly_after 0 (5 * Minute)))
           {| Token := "ghs_x"; ExpiresAt := 5 * Minute; RepositorySelection := "all" |} eq_refl).
Defined.

(** ** Credential construction *)

Section CredentialFacts.
Variable rsaPrivateKey : Type.
Variable pemDecode : string -> option pemBlock.
Variable ParsePKCS1PrivateKey : string -> rsaPrivateKey + error.
Variable ParsePKCS8PrivateKey : string -> pkcs8Key rsaPrivateKey + error.

Lemma parsePrivateKey_ok pem :
  (exists k, parsePrivateKey rsaPrivateKey pemDecode ParsePKCS1PrivateKey
                             ParsePKCS8PrivateKey pem = inl k) <->
  exists block,
    pemDecode pem = Some block /\
    ((blockType block = "RSA PRIVATE KEY" /\
      exists k, ParsePKCS1PrivateKey (blockBytes block) = inl k) \/
     (blockType block = "PRIVATE KEY" /\
      exists k, ParsePKCS8PrivateKey (blockBytes block) = inl (pkcs8RSA k))).
Proof.
  unfold parsePrivateKey. split.
  - intros [k Hk]. destruct (pemDecode pem) as [block|]; [|discriminate].
    exists block. split; [reflexivity|].
    destruct (decide (blockType block = "RSA PRIVATE KEY")) as [Hrsa|Hrsa].
    + left. split; [exact Hrsa|].
      rewrite (bool_decide_eq_true_2 _ Hrsa) in Hk.
      destruct (ParsePKCS1PrivateKey (blockBytes block)) as [k1|err]; [|discriminate].
      exists k1. reflexivity.
    + rewrite (bool_decide_eq_false_2 _ Hrsa) in Hk.
      destruct (decide (blockType block = "PRIVATE KEY")) as [Hpk|Hpk].
      * right. split; [exact Hpk|].
        rewrite (bool_decide_eq_true_2 _ Hpk) in Hk.
        destruct (ParsePKCS8PrivateKey (blockBytes block)) as [[k8|]|err]; try discriminate.
        exists k8. reflexivity.
      * rewrite (bool_decide_eq_false_2 _ Hpk) in Hk. discriminate.
  - intros [block [-> [[Hrsa [k Hk]]|[Hpk [k Hk]]]]].
    + rewrite (bool_decide_eq_true_2 _ Hrsa), Hk. exists k. reflexivity.
    + assert (blockType block <> "RSA PRIVATE KEY") as Hrsa by (rewrite Hpk; discriminate).
      rewrite (bool_decide_eq_false_2 _ Hrsa), (bool_decide_eq_true_2 _ Hpk), Hk.
      exists k. reflexivity.
Qed.

Lemma construct_ok cfg :
  (exists a, NewGitHubAppAuth rsaPrivateKey pemDecode ParsePKCS1PrivateKey
                              ParsePKCS8PrivateKey (Some cfg) = inl a) <->
  AppID cfg <> "" /\ PrivateKey cfg <> "" /\ InstallationID cfg <> "" /\
  (exists n, Atoi (AppID cfg) = inl n) /\
  (exists n, Atoi (InstallationID cfg) = inl n) /\
  (exists k, parsePrivateKey rsaPrivateKey pemDecode ParsePKCS1PrivateKey
                             ParsePKCS8PrivateKey (PrivateKey cfg) = inl k).
Proof.
  unfold NewGitHubAppAuth. split.
  - intros [a Ha].
    destruct (decide (AppID cfg = "")) as [E|E];
      [rewrite (bool_decide_eq_true_2 _ E) in Ha; discriminate|].
    rewrite (bool_decide_eq_false_2 _ E) in Ha.
    destruct (decide (PrivateKey cfg = "")) as [E'|E'];
      [rewrite (bool_decide_eq_true_2 _ E') in Ha; discriminate|].
    rewrite (bool_decide_eq_false_2 _ E') in Ha.
    destruct (decide (InstallationID cfg = "")) as [E''|E''];
      [rewrite (bool_decide_eq_true_2 _ E'') in Ha; discriminate|].
    rewrite (bool_decide_eq_false_2 _ E'') in Ha.
    destruct (Atoi (AppID cfg)) as [n|]; [|discriminate].
    destruct (Atoi (InstallationID cfg)) as [m|]; [|discriminate].
    destruct (parsePrivateKey _ _ _ _ (PrivateKey cfg)) as [k|]; [|discriminate].
    eauto 10.
  - intros (E & E' & E'' & [n ->] & [m ->] & [k ->]).
    rewrite (bool_decide_eq_false_2 _ E), (bool_decide_eq_false_2 _ E'),
      (bool_decide_eq_false_2 _ E'').
    eexists. reflexivity.
Qed.

(** C8, as the code has it: construction succeeds exactly when the three
    fields are not empty, [strconv.Atoi] accepts both IDs (a sign, zero and
    negative numbers are accepted) and the key parses; the key parses
    exactly when the PEM decodes to a block of type RSA PRIVATE KEY that is
    a PKCS#1 key, or of type PRIVATE KEY that is a PKCS#8 RSA key.  A nil
    config fails.  A credential that is produced holds the config, and the
    public endpoint when [BaseURL] is empty. *)
Theorem construction_succeeds_iff cfg :
  ((exists a, NewGitHubAppAuth rsaPrivateKey pemDecode ParsePKCS1PrivateKey
                               ParsePKCS8PrivateKey (Some cfg) = inl a) <->
   AppID cfg <> "" /\ PrivateKey cfg <> "" /\ InstallationID cfg <> "" /\
   (exists n, Atoi (AppID cfg) = inl n) /\
   (exists n, Atoi (InstallationID cfg) = inl n) /\
   exists block,
     pemDecode (PrivateKey cfg) = Some block /\
     ((blockType block = "RSA PRIVATE KEY" /\
       exists k, ParsePKCS1PrivateKey (blockBytes block) = inl k) \/
      (blockType block = "PRIVATE KEY" /\
       exists k, ParsePKCS8PrivateKey (blockBytes block) = inl (pkcs8RSA k)))) /\
  NewGitHubAppAuth rsaPrivateKey pemDecode ParsePKCS1PrivateKey ParsePKCS8PrivateKey None =
    inr (errorString "config cannot be nil") /\
  (forall a,
      NewGitHubAppAuth rsaPrivateKey pemDecode ParsePKCS1PrivateKey ParsePKCS8PrivateKey
                       (Some cfg) = inl a ->
      auth_config _ a = cfg /\
      baseURL _ a = (if bool_decide (BaseURL cfg = "") then "https://api.github.com"
                     else BaseURL cfg) /\
      httpClient _ a = NewHTTPClient None).
Proof.
  split; [|split].
  - rewrite construct_ok, parsePrivateKey_ok. reflexivity.
  - reflexivity.
  - unfold NewGitHubAppAuth. intros a Ha.
    repeat case_bool_decide; try discriminate;
      destruct (Atoi (AppID cfg)); try discriminate;
      destruct (Atoi (InstallationID cfg)); try discriminate;
      destruct (parsePrivateKey _ _ _ _ (PrivateKey cfg)); try discriminate;
      inversion Ha; subst; cbn; auto.
Qed.
End CredentialFacts.

(** C8, as the spec words it, fails on IDs that parse but are not positive:
    with a valid PKCS#8 RSA key, the AppID -1 and the InstallationID 0 are
    accepted and a credential is produced. *)
Lemma nonpositive_ids_are_accepted :
  Atoi "-1" = inl (-1)%Z /\ Atoi "0" = inl 0%Z /\
  NewGitHubAppAuth unit samplePem samplePKCS1 samplePKCS8
                   (Some (sampleConfig "-1" "pkcs8:rsa" "0")) =
    inl {| auth_config := sampleConfig "-1" "pkcs8:rsa" "0";
           privateKey := tt;
           baseURL := "https://api.github.com";
           httpClient := NewHTTPClient None |}.
Proof. repeat split; vm_compute; reflexivity. Qed.

(** The cases of the package's test table, on the stand-in parsers. *)
Example construction_cases :
  let construct := NewGitHubAppAuth unit samplePem samplePKCS1 samplePKCS8 in
  (exists a, construct (Some (sampleConfig "12345" "pkcs8:rsa" "67890")) = inl a) /\
  (exists a, construct (Some (sampleConfig "12345" "pkcs1:rsa" "67890")) = inl a) /\
  construct (Some (sampleConfig "" "pkcs8:rsa" "67890")) = inr (errorString "app_id is required") /\
  construct (Some (sampleConfig "12345" "" "67890")) = inr (errorString "private_key is required") /\
  construct (Some (sampleConfig "12345" "pkcs8:rsa" "")) = inr (errorString "installation_id is required") /\
  (exists e, construct (Some (sampleConfig "invalid-app-id" "pkcs8:rsa" "67890")) =
               inr (wrapError "invalid app_id: " e "")) /\
  (exists e, construct (Some (sampleConfig "12345" "pkcs8:rsa" "invalid-installation-id")) =
               inr (wrapError "invalid installation_id: " e "")) /\
  construct (Some (sampleConfig "12345" "invalid-key" "67890")) =
    inr (wrapError "failed to parse private key: " (errorString "failed to decode PEM block") "") /\
  construct (Some (sampleConfig "12345" "sec1:ec" "67890")) =
    inr (wrapError "failed to parse private key: "
           (errorString "unsupported private key type: EC PRIVATE KEY") "") /\
  construct (Some (sampleConfig "12345" "pkcs8:ed25519" "67890")) =
    inr (wrapError "failed to parse private key: " (errorString "key is not an RSA private key") "").
Proof. cbv zeta. repeat split; try (eexists; vm_compute; reflexivity); vm_compute; reflexivity. Qed.

(** ** The token manager: one renewal, run alone *)

Section RenewalFacts.
Variable installationID : string.

Lemma step_Run s t p :
  threads s !! t = Some p -> step installationID s (Run t) = runStatement installationID t p s.
Proof. intros Ht. unfold step. rewrite Ht. reflexivity. Qed.

Lemma step_Reply s t p r :
  threads s !! t = Some p -> step installationID s (Reply t r) = deliver t p r s.
Proof. intros Ht. unfold step. rewrite Ht. reflexivity. Qed.

Lemma goto_lookup s t p q :
  threads s !! t = Some q -> threads (goto t p s) !! t = Some p.
Proof. intros Ht. cbn. apply list_lookup_insert_eq. eapply lookup_lt_Some, Ht. Qed.

Lemma setEntry_lookup s e c c' :
  heap s !! e = Some c -> heap (setEntry e c' s) !! e = Some c'.
Proof. intros He. cbn. apply list_lookup_insert_eq. eapply lookup_lt_Some, He. Qed.

Lemma run_step l ls s s' :
  step installationID s l = Some s' ->
  run installationID (l :: ls) s = run installationID ls s'.
Proof. intros Hs. cbn [run]. rewrite Hs. reflexivity. Qed.

(** C5: a goroutine that acquires the renewal lock of its entry re-checks
    expiry while it holds the lock; when the cached token is not expired
    against the renew buffer at that point, [renewToken] returns the cached
    token and unlocks, and no exchange is made: the four steps change nothing
    but the position of the goroutine. *)
Theorem recheck_under_lock_skips_exchange s t e c :
  threads s !! t = Some (RN_Lock e) ->
  heap s !! e = Some c ->
  renewMutex c = false ->
  IsTokenExpired (now s) (token c) (renewBuffer s) = false ->
  (exists s1 c1,
      step installationID s (Run t) = Some s1 /\
      threads s1 !! t = Some (RN_recheck e) /\
      heap s1 !! e = Some c1 /\ renewMutex c1 = true /\ token c1 = token c) /\
  run installationID [Run t; Run t; Run t; Run t] s =
    Some (goto t (Done (retToken (token c))) s) /\
  exchanges (goto t (Done (retToken (token c))) s) = exchanges s.
Proof.
  intros Ht He Hfree Hvalid.
  set (locked := {| token := token c; createdAt := createdAt c; lastUsed := lastUsed c;
                    renewing := renewing c; renewMutex := true |}).
  set (s1 := goto t (RN_recheck e) (setEntry e locked s)).
  assert (step installationID s (Run t) = Some s1) as H1.
  { rewrite (step_Run _ _ _ Ht). cbn [runStatement]. rewrite He. cbn. rewrite Hfree. reflexivity. }
  assert (threads s1 !! t = Some (RN_recheck e)) as Ht1 by (eapply goto_lookup, Ht).
  assert (heap s1 !! e = Some locked) as He1 by (eapply setEntry_lookup, He).
  set (s2 := goto t (RN_return e) s1).
  assert (step installationID s1 (Run t) = Some s2) as H2.
  { rewrite (step_Run _ _ _ Ht1). cbn [runStatement]. rewrite He1. cbn. rewrite Hvalid. reflexivity. }
  assert (threads s2 !! t = Some (RN_return e)) as Ht2 by (eapply goto_lookup, Ht1).
  set (s3 := goto t (RN_Unlock e (retToken (token c))) s2).
  assert (step installationID s2 (Run t) = Some s3) as H3.
  { rewrite (step_Run _ _ _ Ht2). cbn [runStatement].
    change (heap s2) with (heap s1). rewrite He1. reflexivity. }
  assert (threads s3 !! t = Some (RN_Unlock e (retToken (token c)))) as Ht3
      by (eapply goto_lookup, Ht2).
  assert (step installationID s3 (Run t) = Some (goto t (Done (retToken (token c))) s)) as H4.
  { rewrite (step_Run _ _ _ Ht3). cbn [runStatement].
    change (heap s3) with (heap s1). rewrite He1. cbn [mbind option_bind renewMutex locked].
    f_equal. destruct s as [ca rd wr rb hp th nw ex iss]. cbn in *.
    unfold goto, setEntry; cbn. f_equal.
    - rewrite list_insert_insert_eq. destruct c as [tk cr lu rn mx]. cbn in Hfree. subst mx.
      apply list_insert_id, He.
    - rewrite !list_insert_insert_eq. reflexivity. }
  split; [|split].
  - exists s1, locked. auto.
  - rewrite (run_step _ _ _ _ H1), (run_step _ _ _ _ H2), (run_step _ _ _ _ H3),
      (run_step _ _ _ _ H4).
    reflexivity.
  - reflexivity.
Qed.

(** C4: a renewal whose exchange fails.  The goroutine takes the lock, finds
    the token expired, marks the entry as renewing and calls the exchange;
    when the exchange returns an error, [renewToken] clears the flag, unlocks
    and returns the error wrapped in [failed to renew token]; the entry stays
    in the cache with the token and the [createdAt] it had. *)
Theorem failed_renewal_keeps_token s t e c err :
  threads s !! t = Some (RN_Lock e) ->
  heap s !! e = Some c ->
  renewMutex c = false ->
  IsTokenExpired (now s) (token c) (renewBuffer s) = true ->
  exists s',
    run installationID [Run t; Run t; Run t; Run t; Reply t (inr err); Run t; Run t] s = Some s' /\
    threads s' !! t = Some (Done (retError (wrapError "failed to renew token: " err ""))) /\
    heap s' !! e = Some {| token := token c; createdAt := createdAt c; lastUsed := lastUsed c;
                           renewing := false; renewMutex := false |} /\
    cache s' = cache s /\
    length (heap s') = length (heap s) /\
    exchanges s' = S (exchanges s) /\
    issued s' = issued s.
Proof.
  intros Ht He Hfree Hdue.
  set (locked := {| token := token c; createdAt := createdAt c; lastUsed := lastUsed c;
                    renewing := renewing c; renewMutex := true |}).
  set (s1 := goto t (RN_recheck e) (setEntry e locked s)).
  assert (step installationID s (Run t) = Some s1) as H1.
  { rewrite (step_Run _ _ _ Ht). cbn [runStatement]. rewrite He. cbn. rewrite Hfree. reflexivity. }
  assert (threads s1 !! t = Some (RN_recheck e)) as Ht1 by (eapply goto_lookup, Ht).
  assert (heap s1 !! e = Some locked) as He1 by (eapply setEntry_lookup, He).
  set (s2 := goto t (RN_mark e) s1).
  assert (step installationID s1 (Run t) = Some s2) as H2.
  { rewrite (step_Run _ _ _ Ht1). cbn [runStatement]. rewrite He1. cbn. rewrite Hdue. reflexivity. }
  assert (threads s2 !! t = Some (RN_mark e)) as Ht2 by (eapply goto_lookup, Ht1).
  set (marked := {| token := token c; createdAt := createdAt c; lastUsed := lastUsed c;
                    renewing := true; renewMutex := true |}).
  set (s3 := goto t (RN_call e) (setEntry e marked s2)).
  assert (step installationID s2 (Run t) = Some s3) as H3.
  { rewrite (step_Run _ _ _ Ht2). cbn [runStatement].
    change (heap s2) with (heap s1). rewrite He1. reflexivity. }
  assert (threads s3 !! t = Some (RN_call e)) as Ht3 by (eapply goto_lookup, Ht2).
  assert (heap s3 !! e = Some marked) as He3 by (eapply (setEntry_lookup s2), He1).
  set (s4 := goto t (RN_wait e)
               (mkState (cache s3) (readers s3) (writer s3) (renewBuffer s3) (heap s3)
                        (threads s3) (now s3) (S (exchanges s3)) (issued s3))).
  assert (step installationID s3 (Run t) = Some s4) as H4.
  { rewrite (step_Run _ _ _ Ht3). reflexivity. }
  assert (threads s4 !! t = Some (RN_wait e)) as Ht4.
  { cbn. apply list_lookup_insert_eq. eapply lookup_lt_Some, Ht3. }
  set (s5 := goto t (RN_fail e err) s4).
  assert (step installationID s4 (Reply t (inr err)) = Some s5) as H5.
  { rewrite (step_Reply _ _ _ _ Ht4). reflexivity. }
  assert (threads s5 !! t = Some (RN_fail e err)) as Ht5 by (eapply goto_lookup, Ht4).
  set (cleared := {| token := token c; createdAt := createdAt c; lastUsed := lastUsed c;
                     renewing := false; renewMutex := true |}).
  set (s6 := goto t (RN_Unlock e (retError (wrapError "failed to renew token: " err "")))
               (setEntry e cleared s5)).
  assert (step installationID s5 (Run t) = Some s6) as H6.
  { rewrite (step_Run _ _ _ Ht5). cbn [runStatement].
    change (heap s5) with (heap s3). rewrite He3. reflexivity. }
  assert (threads s6 !! t = Some (RN_Unlock e (retError (wrapError "failed to renew token: " err ""))))
    as Ht6 by (eapply goto_lookup, Ht5).
  assert (heap s6 !! e = Some cleared) as He6.
  { eapply (setEntry_lookup s5). change (heap s5) with (heap s3). exact He3. }
  set (released := {| token := token c; createdAt := createdAt c; lastUsed := lastUsed c;
                      renewing := false; renewMutex := false |}).
  set (s7 := goto t (Done (retError (wrapError "failed to renew token: " err "")))
               (setEntry e released s6)).
  assert (step installationID s6 (Run t) = Some s7) as H7.
  { rewrite (step_Run _ _ _ Ht6). cbn [runStatement]. rewrite He6. reflexivity. }
  exists s7. split; [|split; [|split; [|split; [|split; [|split]]]]].
  - rewrite (run_step _ _ _ _ H1), (run_step _ _ _ _ H2), (run_step _ _ _ _ H3),
      (run_step _ _ _ _ H4), (run_step _ _ _ _ H5), (run_step _ _ _ _ H6), (run_step _ _ _ _ H7).
    reflexivity.
  - eapply goto_lookup, Ht6.
  - eapply (setEntry_lookup s6), He6.
  - reflexivity.
  - cbn. rewrite !length_insert. reflexivity.
  - reflexivity.
  - reflexivity.
Qed.
End RenewalFacts.

(** ** The token manager: what every schedule keeps *)

Lemma lockMove_disciplined ms hs ms' hs' :
  lockMove (ms, hs) (ms', hs') -> disciplined ms hs -> disciplined ms' hs'.
Proof.
  intros Hmove [Hlocked Hunique].
  inversion Hmove as [v|?|?|? ? t e Hfree Hidle|? ? t e Hheld]; subst.
  - split; assumption.
  - split; [|assumption].
    intros t e Ht. apply lookup_app_l_Some. eauto.
  - split.
    + intros t e Ht. apply lookup_app_Some in Ht as [Ht|[_ Ht]]; [eauto|].
      apply list_lookup_singleton_Some in Ht as [_ Ht]. discriminate.
    + intros t1 t2 e H1 H2.
      apply lookup_app_Some in H1 as [H1|[_ H1]];
        [|apply list_lookup_singleton_Some in H1 as [_ H1]; discriminate].
      apply lookup_app_Some in H2 as [H2|[_ H2]];
        [|apply list_lookup_singleton_Some in H2 as [_ H2]; discriminate].
      eauto.
  - assert (forall t', hs !! t' = Some (Some e) -> False) as Hnobody.
    { intros t' Ht'. specialize (Hlocked _ _ Ht'). congruence. }
    split.
    + intros t' e' Ht'.
      destruct (decide (t' = t)) as [->|Hne].
      * rewrite list_lookup_insert_eq in Ht' by (eapply lookup_lt_Some, Hidle).
        injection Ht' as <-. apply list_lookup_insert_eq. eapply lookup_lt_Some, Hfree.
      * rewrite list_lookup_insert_ne in Ht' by congruence.
        destruct (decide (e' = e)) as [->|Hne']; [exfalso; eauto|].
        rewrite list_lookup_insert_ne by congruence. eauto.
    + intros t1 t2 e' H1 H2.
      destruct (decide (t1 = t)) as [->|Hne1]; destruct (decide (t2 = t)) as [->|Hne2];
        try reflexivity.
      * rewrite list_lookup_insert_eq in H1 by (eapply lookup_lt_Some, Hidle).
        rewrite list_lookup_insert_ne in H2 by congruence.
        injection H1 as <-. exfalso; eauto.
      * rewrite list_lookup_insert_eq in H2 by (eapply lookup_lt_Some, Hidle).
        rewrite list_lookup_insert_ne in H1 by congruence.
        injection H2 as <-. exfalso; eauto.
      * rewrite list_lookup_insert_ne in H1, H2 by congruence. eauto.
  - split.
    + intros t' e' Ht'.
      destruct (decide (t' = t)) as [->|Hne].
      * rewrite list_lookup_insert_eq in Ht' by (eapply lookup_lt_Some, Hheld). discriminate.
      * rewrite list_lookup_insert_ne in Ht' by congruence.
        destruct (decide (e' = e)) as [->|Hne'].
        -- exfalso. apply Hne. eauto.
        -- rewrite list_lookup_insert_ne by congruence. eauto.
    + intros t1 t2 e' H1 H2.
      destruct (decide (t1 = t)) as [->|Hne1].
      { rewrite list_lookup_insert_eq in H1 by (eapply lookup_lt_Some, Hheld). discriminate. }
      destruct (decide (t2 = t)) as [->|Hne2].
      { rewrite list_lookup_insert_eq in H2 by (eapply lookup_lt_Some, Hheld). discriminate. }
      rewrite list_lookup_insert_ne in H1, H2 by congruence. eauto.
Qed.

Lemma holders_goto (s : state) t p p' :
  threads s !! t = Some p -> holds p' = holds p ->
  holds <$> <[t := p']> (threads s) = holds <$> threads s.
Proof.
  intros Ht Hsame. rewrite list_fmap_insert. apply list_insert_id.
  rewrite list_lookup_fmap, Ht, Hsame. reflexivity.
Qed.

Lemma locks_setEntry (s : state) e c c' :
  heap s !! e = Some c -> renewMutex c' = renewMutex c ->
  renewMutex <$> <[e := c']> (heap s) = renewMutex <$> heap s.
Proof.
  intros He Hsame. rewrite list_fmap_insert. apply list_insert_id.
  rewrite list_lookup_fmap, He, Hsame. reflexivity.
Qed.

Lemma sum_list_insert (f : pc -> nat) (l : list pc) t p p' :
  l !! t = Some p ->
  sum_list_with f (<[t := p']> l) + f p = sum_list_with f l + f p'.
Proof.
  revert t. induction l as [|q l IH]; intros [|t] Ht; try discriminate.
  - injection Ht as ->. cbn. lia.
  - specialize (IH t Ht). apply (f_equal (Nat.add (f q))) in IH.
    rewrite !Nat.add_assoc in IH. exact IH.
Qed.

Lemma genuine_later iss tk o : genuine iss o -> genuine (iss ++ [tk]) o.
Proof. intros [x [-> Hx]]. exists x. split; [reflexivity|]. apply elem_of_app. auto. Qed.

Lemma genuine_last iss tk : genuine (iss ++ [tk]) (Some tk).
Proof. exists tk. split; [reflexivity|]. apply elem_of_app. right. apply list_elem_of_singleton. reflexivity. Qed.

(** The four operations of [tm.mutex] touch nothing but that mutex. *)
Lemma mutex_frame (op : state -> option state) s s' :
  op = RLock \/ op = RUnlock \/ op = Lock \/ op = Unlock ->
  op s = Some s' -> exists r w, s' = setMutex r w s.
Proof.
  intros [-> | [-> | [-> | ->]]]; unfold RLock, RUnlock, Lock, Unlock; intros Hop.
  - destruct (writer s); [discriminate|]. injection Hop as <-. eauto.
  - destruct (readers s); [discriminate|]. injection Hop as <-. eauto.
  - destruct (writer s || negb (readers s =? 0)%nat); [discriminate|]. injection Hop as <-. eauto.
  - destruct (writer s); [|discriminate]. injection Hop as <-. eauto.
Qed.

(** Proof steps shared by the case analyses on [step]. *)
Ltac crack H :=
  repeat match type of H with
    | None = Some _ => discriminate H
    | Some _ = Some _ => injection H as <-
    | (_ <$> ?op ?s) = Some _ =>
        let E := fresh "E" in
        destruct (op s) eqn:E; cbn in H;
        [apply (mutex_frame op) in E as [? [? ->]]; [|tauto] |]
    | (mbind _ ?o) = Some _ => let E := fresh "E" in destruct o eqn:E; cbn in H
    | (if ?b then _ else _) = Some _ => let E := fresh "E" in destruct b eqn:E
    end.

Ltac split_pc :=
  repeat match goal with
    | |- context [if ?b then _ else _] => destruct b
    | |- context [match ?c with Some _ => _ | None => _ end] => destruct c
    end.

Ltac count f Ht :=
  match goal with
  | |- context [<[?t := ?p']> (threads ?s)] =>
      let Hsum := fresh "Hsum" in
      pose proof (sum_list_insert f (threads s) t _ p' Ht) as Hsum; cbn in Hsum; cbn; lia
  end.

Ltac known Hh Hp Ht :=
  first
    [ exact (Forall_lookup_1 _ _ _ _ Hp Ht _ eq_refl)
    | match goal with E : heap _ !! _ = Some _ |- _ => exact (Forall_lookup_1 _ _ _ _ Hh E) end ].

Ltac pc_ok Hh Hp Ht :=
  let o := fresh "o" in
  let Ho := fresh "Ho" in
  intros o Ho; cbn in Ho;
  first [ discriminate Ho | injection Ho as <-; known Hh Hp Ht ].

Section ManagerInvariants.
Variable installationID : string.

Lemma run_invariant (P : state -> Prop) :
  (forall s l s', step installationID s l = Some s' -> P s -> P s') ->
  forall ls s s', run installationID ls s = Some s' -> P s -> P s'.
Proof.
  intros Hstep. induction ls as [|l ls IH]; intros s s' Hrun Hs; cbn in Hrun.
  - injection Hrun as <-. exact Hs.
  - destruct (step installationID s l) as [s1|] eqn:Hs1; [|discriminate]. cbn in Hrun.
    eapply IH; [exact Hrun|]. eapply Hstep; eassumption.
Qed.

Lemma step_lockMove s l s' :
  step installationID s l = Some s' ->
  lockMove (locksOf s, holdersOf s) (locksOf s', holdersOf s').
Proof.
  intros Hstep. destruct l as [c|t|t r|d]; cbn in Hstep.
  - injection Hstep as <-. unfold locksOf, holdersOf. cbn. rewrite fmap_app.
    destruct c; apply lm_spawn.
  - destruct (threads s !! t) as [p|] eqn:Ht; [|discriminate]. cbn in Hstep.
    destruct p; cbn in Hstep; crack Hstep.
    all: unfold locksOf, holdersOf; cbn; split_pc.
    all: try (erewrite holders_goto by (first [exact Ht | reflexivity])).
    all: try (erewrite locks_setEntry by (first [eassumption | reflexivity])).
    all: try apply lm_same.
    + rewrite !list_fmap_insert. cbn. apply lm_acquire.
      * rewrite list_lookup_fmap. 
        match goal with H : heap s !! _ = Some _ |- _ => rewrite H end. cbn. congruence.
      * rewrite list_lookup_fmap, Ht. reflexivity.
    + rewrite !list_fmap_insert. cbn. apply lm_release.
      rewrite list_lookup_fmap, Ht. reflexivity.
    + rewrite fmap_app. apply lm_alloc.
  - destruct (threads s !! t) as [p|] eqn:Ht; [|discriminate]. cbn in Hstep.
    destruct p, r; cbn in Hstep; crack Hstep.
    all: unfold locksOf, holdersOf; cbn.
    all: erewrite holders_goto by (first [exact Ht | reflexivity]).
    all: apply lm_same.
  - destruct (0 <=? d)%Z; [|discriminate]. injection Hstep as <-. apply lm_same.
Qed.

(** A step makes at most one exchange, and only for a goroutine that could
    still make one; a goroutine gets that possibility once, when it starts a
    [GetToken]. *)
Lemma step_exchanges s l s' :
  step installationID s l = Some s' ->
  exchanges s' + sum_list_with mayExchange (threads s')
  <= exchanges s + sum_list_with mayExchange (threads s) + startsGetToken l.
Proof.
  intros Hstep. destruct l as [c|t|t r|d]; cbn in Hstep.
  - injection Hstep as <-. cbn. rewrite sum_list_with_app. destruct c; cbn; lia.
  - destruct (threads s !! t) as [p|] eqn:Ht; [|discriminate]. cbn in Hstep.
    destruct p; cbn in Hstep; crack Hstep; cbn; split_pc; count mayExchange Ht.
  - destruct (threads s !! t) as [p|] eqn:Ht; [|discriminate]. cbn in Hstep.
    destruct p, r; cbn in Hstep; crack Hstep; cbn; count mayExchange Ht.
  - destruct (0 <=? d)%Z; [|discriminate]. injection Hstep as <-. cbn. lia.
Qed.

Lemma run_exchanges ls : forall s s',
  run installationID ls s = Some s' ->
  exchanges s' + sum_list_with mayExchange (threads s')
  <= exchanges s + sum_list_with mayExchange (threads s) + getTokenCalls ls.
Proof.
  induction ls as [|l ls IH]; intros s s' Hrun; cbn in Hrun.
  - injection Hrun as <-. unfold getTokenCalls. cbn. lia.
  - destruct (step installationID s l) as [s1|] eqn:Hstep; [|discriminate]. cbn in Hrun.
    specialize (IH _ _ Hrun). pose proof (step_exchanges _ _ _ Hstep).
    unfold getTokenCalls in *. cbn. lia.
Qed.

Lemma step_accounted s l s' :
  step installationID s l = Some s' -> accounted s -> accounted s'.
Proof.
  unfold accounted. intros Hstep Hs. destruct l as [c|t|t r|d]; cbn in Hstep.
  - injection Hstep as <-. cbn. rewrite sum_list_with_app. destruct c; cbn; lia.
  - destruct (threads s !! t) as [p|] eqn:Ht; [|discriminate]. cbn in Hstep.
    destruct p; cbn in Hstep; crack Hstep; cbn; split_pc; count inFlight Ht.
  - destruct (threads s !! t) as [p|] eqn:Ht; [|discriminate]. cbn in Hstep.
    destruct p, r; cbn in Hstep; crack Hstep; cbn; rewrite ?length_app; cbn;
      count inFlight Ht.
  - destruct (0 <=? d)%Z; [|discriminate]. injection Hstep as <-. cbn. lia.
Qed.

Lemma step_provenance s l s' :
  step installationID s l = Some s' -> provenance s -> provenance s'.
Proof.
  intros Hstep [Hh Hp]. destruct l as [c|t|t r|d]; cbn in Hstep.
  - injection Hstep as <-. split; [exact Hh|]. cbn.
    apply Forall_app. split; [exact Hp|].
    apply Forall_singleton. intros o Ho. destruct c; discriminate.
  - destruct (threads s !! t) as [p|] eqn:Ht; [|discriminate]. cbn in Hstep.
    destruct p; cbn in Hstep; crack Hstep; (split; cbn).
    all: try exact Hh.
    all: try (apply Forall_insert; [exact Hp|]; split_pc; pc_ok Hh Hp Ht).
    all: try (apply Forall_insert; [exact Hh|]; cbn; known Hh Hp Ht).
    + apply Forall_insert; [exact Hp|]. destruct r; pc_ok Hh Hp Ht.
    + apply Forall_app. split; [exact Hh|]. apply Forall_singleton. cbn. known Hh Hp Ht.
  - destruct (threads s !! t) as [p|] eqn:Ht; [|discriminate]. cbn in Hstep.
    destruct p, r; cbn in Hstep; crack Hstep; (split; cbn).
    all: try exact Hh.
    all: try (apply Forall_insert; [exact Hp|]; pc_ok Hh Hp Ht).
    all: try (eapply Forall_impl; [exact Hh|]; cbn; intros; apply genuine_later; assumption).
    all: apply Forall_insert;
      [ eapply Forall_impl; [exact Hp|]; cbn; intros; apply genuine_later; auto
      | intros o Ho; injection Ho as <-; apply genuine_last ].
  - destruct (0 <=? d)%Z; [|discriminate]. injection Hstep as <-. split; assumption.
Qed.
End ManagerInvariants.

(** ** The token manager under concurrent calls *)

Section ConcurrentCalls.
Variable installationID : string.

Lemma new_manager_disciplined renewBuffer :
  disciplined (locksOf (NewTokenManager renewBuffer)) (holdersOf (NewTokenManager renewBuffer)).
Proof. split; intros *; cbn; intros H; rewrite lookup_nil in H; discriminate. Qed.

Lemma holdersOf_lookup s t p :
  threads s !! t = Some p -> holdersOf s !! t = Some (holds p).
Proof. intros Ht. unfold holdersOf. rewrite list_lookup_fmap, Ht. reflexivity. Qed.

(** C1, as the code has it: in every state that any schedule of calls
    reaches from a new manager, the goroutines between the [Lock] of line 62
    and the deferred [Unlock] of one cache entry are at most one; so at most
    one renewal exchange is in flight for an entry, and the mutex of that
    entry is locked for as long as it is. *)
Theorem one_renewal_in_flight_per_entry renewBuffer ls s :
  run installationID ls (NewTokenManager renewBuffer) = Some s ->
  (forall e t1 t2 p1 p2,
      threads s !! t1 = Some p1 -> threads s !! t2 = Some p2 ->
      holds p1 = Some e -> holds p2 = Some e -> t1 = t2) /\
  (forall e t1 t2,
      threads s !! t1 = Some (RN_wait e) -> threads s !! t2 = Some (RN_wait e) -> t1 = t2) /\
  (forall e t,
      threads s !! t = Some (RN_wait e) ->
      exists c, heap s !! e = Some c /\ renewMutex c = true).
Proof.
  intros Hrun.
  assert (disciplined (locksOf s) (holdersOf s)) as [Hlocked Hunique].
  { eapply (run_invariant installationID (fun s => disciplined (locksOf s) (holdersOf s)));
      [|exact Hrun|apply new_manager_disciplined].
    intros s0 l s1 Hstep. apply lockMove_disciplined. eapply step_lockMove, Hstep. }
  assert (forall e t1 t2 p1 p2,
             threads s !! t1 = Some p1 -> threads s !! t2 = Some p2 ->
             holds p1 = Some e -> holds p2 = Some e -> t1 = t2) as Hexcl.
  { intros e t1 t2 p1 p2 H1 H2 E1 E2. apply (Hunique t1 t2 e).
    - rewrite (holdersOf_lookup _ _ _ H1), E1. reflexivity.
    - rewrite (holdersOf_lookup _ _ _ H2), E2. reflexivity. }
  split; [exact Hexcl|]. split.
  - intros e t1 t2 H1 H2. exact (Hexcl e t1 t2 _ _ H1 H2 eq_refl eq_refl).
  - intros e t Ht.
    pose proof (Hlocked t e (holdersOf_lookup _ _ _ Ht)) as Hm.
    unfold locksOf in Hm. rewrite list_lookup_fmap in Hm.
    destruct (heap s !! e) as [c|]; [|discriminate].
    exists c. split; [reflexivity|]. cbn in Hm. congruence.
Qed.

Lemma new_manager_sound renewBuffer :
  provenance (NewTokenManager renewBuffer) /\ accounted (NewTokenManager renewBuffer).
Proof. split; [split; constructor | unfold accounted; cbn; lia]. Qed.

End ConcurrentCalls.

(** C1, as the spec words it, fails for the identity as a whole: after two
    overlapping first calls there are two entries for the one installation
    ID, and the renewals of goroutines 2 and 3, each under the lock of its
    own entry, are in flight together. *)
Lemma two_renewals_in_flight_for_one_identity :
  threads <$> run "67890" overlappingRenewals (NewTokenManager (2 * Hour)) =
    Some [Done (retToken (Some tokenA)); Done (retToken (Some tokenB)); RN_wait 0; RN_wait 1] /\
  renewalsInFlight <$> run "67890" overlappingRenewals (NewTokenManager (2 * Hour)) = Some 2.
Proof. split; vm_compute; reflexivity. Qed.

Lemma one_renewal_in_flight_per_entry_witness :
  exists c, heap (reach "67890" 0 oneInFlight) !! 0 = Some c /\ renewMutex c = true.
Proof.
  refine (proj2 (proj2 (one_renewal_in_flight_per_entry "67890" 0 oneInFlight
                          (reach "67890" 0 oneInFlight) _)) 0 1 _);
    vm_compute; reflexivity.
Defined.

(** While goroutine 1 holds the lock of entry 0, goroutine 2 cannot take it. *)
Example second_renewer_waits :
  threads (reach "67890" 0 oneInFlight) !! 1 = Some (RN_wait 0) /\
  threads (reach "67890" 0 oneInFlight) !! 2 = Some (RN_Lock 0) /\
  step "67890" (reach "67890" 0 oneInFlight) (Run 2) = None.
Proof. repeat split; vm_compute; reflexivity. Qed.



Lemma failed_renewal_keeps_token_witness :
  exists s',
    run "67890" [Run 1; Run 1; Run 1; Run 1; Reply 1 (inr exchangeDown); Run 1; Run 1]
        (reach "67890" 0 twoFindItDue) = Some s' /\
    threads s' !! 1 = Some (Done (retError (wrapError "failed to renew token: " exchangeDown ""))) /\
    heap s' !! 0 = Some {| token := Some tokenA; createdAt := 0; lastUsed := 56 * Minute;
                           renewing := false; renewMutex := false |}.
Proof.
  destruct (failed_renewal_keeps_token "67890" (reach "67890" 0 twoFindItDue) 1 0
              {| token := Some tokenA; createdAt := 0; lastUsed := 56 * Minute;
                 renewing := false; renewMutex := false |} exchangeDown
              eq_refl eq_refl eq_refl eq_refl) as [s' [Hrun [Hret [Hentry _]]]].
  exists s'. auto.
Defined.

Lemma recheck_under_lock_skips_exchange_witness :
  run "67890" [Run 2; Run 2; Run 2; Run 2] (reach "67890" 0 oneRenews) =
    Some (goto 2 (Done (retToken (Some tokenC))) (reach "67890" 0 oneRenews)).
Proof.
  exact (proj1 (proj2 (recheck_under_lock_skips_exchange "67890" (reach "67890" 0 oneRenews) 2 0
                         {| token := Some tokenC; createdAt := 56 * Minute; lastUsed := 56 * Minute;
                            renewing := false; renewMutex := false |}
                         eq_refl eq_refl eq_refl eq_refl))).
Defined.

(** Calls that do not overlap behave as the cache promises: the second of two
    calls in turn is served from the cache, with no second exchange; a
    renewal replaces the token of the entry and its [createdAt]. *)
Example calls_in_turn_share_one_exchange :
  exchanges (reach "67890" 0 callsInTurn) = 1 /\
  threads (reach "67890" 0 callsInTurn) =
    [Done (retToken (Some tokenA)); Done (retToken (Some tokenA))].
Proof. split; vm_compute; reflexivity. Qed.

Example renewal_replaces_the_token :
  heap (reach "67890" 0 oneRenews) =
    [{| token := Some tokenC; createdAt := 56 * Minute; lastUsed := 56 * Minute;
        renewing := false; renewMutex := false |}] /\
  cache (reach "67890" 0 oneRenews) !! "67890" = Some 0 /\
  exchanges (reach "67890" 0 oneRenews) = 2.
Proof. repeat split; vm_compute; reflexivity. Qed.

(** * More of the package *)

Section ExecutorBounds.
Variable NewRequestWithContext : string -> string -> string -> Request + error.
Variable clientDo : nat -> Request -> Response + error.

(** One run of the closure: one more try, at most one more request sent,
    and an outcome of one of four kinds. *)
Lemma attempt_shape c cfg s :
  exists o s',
    attempt NewRequestWithContext clientDo c cfg s = (o, s') /\
    tries s' = S (tries s) /\
    match o with
    | None => sent s' = S (sent s) /\
              exists rsp, resp s' = Some rsp /\ shouldRetry (StatusCode rsp) = false
    | Some err =>
        resp s' = resp s /\
        exists k, err = causeError k /\
          match k with
          | notBuilt _ => sent s' = sent s
          | notSent _ => sent s' = S (sent s)
          | retryable code => sent s' = S (sent s) /\ shouldRetry code = true
          end
    end.
Proof.
  unfold attempt.
  destruct (NewRequestWithContext _ _ _) as [req|err].
  - match goal with |- context [clientDo ?n ?r] => destruct (clientDo n r) as [rsp|err] end.
    + destruct (shouldRetry (StatusCode rsp)) eqn:Hcode.
      * do 2 eexists. split; [reflexivity|]. split; [reflexivity|]. split; [reflexivity|].
        exists (retryable (StatusCode rsp)). cbn. auto.
      * do 2 eexists. split; [reflexivity|]. split; [reflexivity|]. cbn. eauto.
    + do 2 eexists. split; [reflexivity|]. split; [reflexivity|]. split; [reflexivity|].
      exists (notSent err). cbn. auto.
  - do 2 eexists. split; [reflexivity|]. split; [reflexivity|]. split; [reflexivity|].
    exists (notBuilt err). cbn. auto.
Qed.

Lemma causeError_retryable k :
  isRetryableError (causeError k) = true <-> exists code, k = retryable code.
Proof.
  destruct k; cbn; split; try discriminate; eauto; intros [code Hk]; discriminate.
Qed.

(** The loop under a positive ceiling: after [n] failed attempts it makes
    [k] more, between one and what is left of the ceiling; all of them but
    the last were sent and answered with a retryable status. *)
Lemma bounded_shape c cfg :
  forall fuel n s0 o s1,
    (n < MaxRetries (config c))%nat ->
    retry.bounded (attempt NewRequestWithContext clientDo c cfg) (MaxRetries (config c))
                  isRetryableError fuel n s0 = Some (o, s1) ->
    exists k,
      (1 <= k <= MaxRetries (config c) - n)%nat /\
      tries s1 = (tries s0 + k)%nat /\
      match o with
      | None => sent s1 = (sent s0 + k)%nat /\
                exists rsp, resp s1 = Some rsp /\ shouldRetry (StatusCode rsp) = false
      | Some err =>
          resp s1 = resp s0 /\
          exists why, err = causeError why /\
            match why with
            | notBuilt _ => sent s1 = (sent s0 + k - 1)%nat
            | notSent _ => sent s1 = (sent s0 + k)%nat
            | retryable code =>
                sent s1 = (sent s0 + k)%nat /\ shouldRetry code = true /\
                k = (MaxRetries (config c) - n)%nat
            end
      end.
Proof.
  induction fuel as [|fuel IH]; intros n s0 o s1 Hn; cbn; [discriminate|].
  destruct (attempt_shape c cfg s0) as (o' & s' & -> & Htries & Hshape).
  destruct o' as [err|].
  - destruct Hshape as [Hresp [why [-> Hwhy]]].
    destruct why as [e|e|code]; cbn [causeError isRetryableError negb].
    + intros Heq. injection Heq as <- <-. exists 1%nat.
      split; [lia|]. split; [lia|]. split; [exact Hresp|].
      exists (notBuilt e). split; [reflexivity|]. lia.
    + intros Heq. injection Heq as <- <-. exists 1%nat.
      split; [lia|]. split; [lia|]. split; [exact Hresp|].
      exists (notSent e). split; [reflexivity|]. lia.
    + destruct Hwhy as [Hsent Hcode].
      destruct (Nat.eqb_spec n (MaxRetries (config c) - 1)) as [Hlast|Hmore].
      * intros Heq. injection Heq as <- <-. exists 1%nat.
        split; [lia|]. split; [lia|]. split; [exact Hresp|].
        exists (retryable code). split; [reflexivity|].
        split; [lia|]. split; [exact Hcode|lia].
      * intros Hloop. destruct (IH (S n) s' o s1 ltac:(lia) Hloop) as (k & Hk & Ht & Ho).
        exists (S k). split; [lia|]. split; [lia|].
        destruct o as [err|].
        -- destruct Ho as [Hresp1 [why [-> Hwhy]]]. split; [congruence|].
           exists why. split; [reflexivity|].
           destruct why; [lia|lia|]. destruct Hwhy as (? & ? & ?). repeat split; [lia|assumption|lia].
        -- destruct Ho as [Hs Hr]. split; [lia|exact Hr].
  - intros Heq. injection Heq as <- <-. exists 1%nat.
    destruct Hshape as [Hs Hr]. split; [lia|]. split; [lia|]. split; [lia|exact Hr].
Qed.

(** X1: under a positive ceiling [doRequest] returns, given fuel for that
    many rounds; it makes at least one attempt and at most [MaxRetries], and
    every attempt except possibly the last reached the server. *)
Theorem attempts_stay_under_the_ceiling fuel c cfg :
  (0 < MaxRetries (config c))%nat ->
  (MaxRetries (config c) <= fuel)%nat ->
  exists r s,
    doRequest NewRequestWithContext clientDo fuel c cfg = Some (r, s) /\
    (1 <= tries s <= MaxRetries (config c))%nat /\
    (tries s - 1 <= sent s <= tries s)%nat.
Proof.
  intros Hpos Hfuel.
  pose proof (doRequest_total NewRequestWithContext clientDo fuel c cfg Hpos Hfuel) as Htotal.
  unfold doRequest, retry.Do in *.
  destruct (Nat.eqb_spec (MaxRetries (config c)) 0) as [|_]; [lia|].
  destruct (retry.bounded _ _ _ fuel 0 reqStart) as [[o s1]|] eqn:Hloop.
  - destruct (bounded_shape c cfg fuel 0%nat reqStart o s1 Hpos Hloop) as (k & Hk & Ht & Ho).
    cbn in Ht.
    destruct o as [err|].
    + do 2 eexists. split; [reflexivity|]. split; [lia|].
      destruct Ho as [_ [why [_ Hwhy]]]. cbn in Hwhy.
      destruct why as [e|e|code]; [lia|lia|]. destruct Hwhy as (? & ? & ?). lia.
    + do 2 eexists. split; [reflexivity|]. split; [lia|].
      destruct Ho as [Hs _]. cbn in Hs. lia.
  - exfalso. apply Htotal. reflexivity.
Qed.

(** X2: a failure of [doRequest] under a positive ceiling has one of three
    causes below its attempt-count wrapper: the request could not be built
    (nothing was sent on that attempt), the transport failed, or the status
    was retryable - and a retryable status is reported only once all
    [MaxRetries] attempts have been made and sent.  The first two end the
    request at the attempt where they occur. *)
Theorem failures_have_three_causes fuel c cfg err s :
  (0 < MaxRetries (config c))%nat ->
  doRequest NewRequestWithContext clientDo fuel c cfg = Some (inr err, s) ->
  resp s = None /\
  exists why,
    err = wrapError ("request failed after " ++ pretty (MaxRetries (config c)) ++ " attempts: ")
                    (causeError why) "" /\
    match why with
    | notBuilt _ => sent s = (tries s - 1)%nat
    | notSent _ => sent s = tries s
    | retryable code =>
        shouldRetry code = true /\ tries s = MaxRetries (config c) /\ sent s = tries s
    end.
Proof.
  intros Hpos. unfold doRequest, retry.Do.
  destruct (Nat.eqb_spec (MaxRetries (config c)) 0) as [|_]; [lia|].
  destruct (retry.bounded _ _ _ fuel 0 reqStart) as [[[e|] s1]|] eqn:Hloop; try discriminate.
  intros Heq. injection Heq as <- <-.
  destruct (bounded_shape c cfg fuel 0%nat reqStart _ _ Hpos Hloop)
    as (k & Hk & Ht & Hresp & why & -> & Hwhy).
  cbn in Ht, Hresp, Hwhy.
  split; [exact Hresp|]. exists why. split; [reflexivity|].
  destruct why as [e|e|code]; [lia|lia|].
  destruct Hwhy as (? & ? & ?). repeat split; [assumption|lia|lia].
Qed.
End ExecutorBounds.
Section ExecutorRequests.
Variable NewRequestWithContext : string -> string -> string -> Request + error.

Lemma bounded_ext {St : Type} (f g : St -> option error * St) attempts retryIf :
  (forall s, f s = g s) ->
  forall fuel n s, retry.bounded f attempts retryIf fuel n s = retry.bounded g attempts retryIf fuel n s.
Proof.
  intros Hfg. induction fuel as [|fuel IH]; intros n s; cbn; [reflexivity|].
  rewrite Hfg. destruct (g s) as [[err|] s']; [|reflexivity].
  destruct (negb (retryIf err)); [reflexivity|].
  destruct (n =? attempts - 1)%nat; [reflexivity|]. apply IH.
Qed.

Lemma forever_ext {St : Type} (f g : St -> option error * St) retryIf :
  (forall s, f s = g s) ->
  forall fuel s, retry.forever f retryIf fuel s = retry.forever g retryIf fuel s.
Proof.
  intros Hfg. induction fuel as [|fuel IH]; intros s; cbn; [reflexivity|].
  rewrite Hfg. destruct (g s) as [[err|] s']; [|reflexivity].
  destruct (negb (retryIf err)); [reflexivity|]. apply IH.
Qed.

(** The request that the closure hands to the transport is the one that was
    built, dressed. *)
Lemma attempt_sends_dressed c cfg base :
  NewRequestWithContext (Method cfg) (URL cfg) (ReqBody cfg) = inl base ->
  exists r, dressed c cfg base r /\
    forall clientDo s,
      attempt NewRequestWithContext clientDo c cfg s =
        match clientDo (sent s) r with
        | inr err => (Some (wrapError "failed to make request: " err ""),
                      {| resp := resp s; tries := S (tries s); sent := S (sent s) |})
        | inl response =>
            if shouldRetry (StatusCode response)
            then (Some (RetryableError (StatusCode response)),
                  {| resp := resp s; tries := S (tries s); sent := S (sent s) |})
            else (None, {| resp := Some response; tries := S (tries s); sent := S (sent s) |})
        end.
Proof.
  intros Hnew. eexists. split; [|intros clientDo s; unfold attempt; rewrite Hnew; reflexivity].
  unfold dressed, setHeader.
  destruct (bool_decide (AuthToken cfg = "")), (bool_decide (Accept cfg = "")); cbn;
    repeat split; try reflexivity;
    try (intros k H1 H2 H3);
    repeat first [ rewrite lookup_insert_eq | rewrite lookup_insert_ne by congruence ];
    reflexivity.
Qed.

(** X3: the transport only ever sees dressed requests: two transports that
    answer alike on the requests that carry the fixed User-Agent, the Accept
    header (the GitHub media type unless the caller names one) and, when a
    token is given, the Bearer authorization, and that otherwise are the
    request that was built, cannot be told apart by [doRequest]. *)
Theorem only_dressed_requests_are_sent clientDo clientDo' fuel c cfg :
  (forall n base r,
      NewRequestWithContext (Method cfg) (URL cfg) (ReqBody cfg) = inl base ->
      dressed c cfg base r ->
      clientDo n r = clientDo' n r) ->
  doRequest NewRequestWithContext clientDo fuel c cfg =
  doRequest NewRequestWithContext clientDo' fuel c cfg.
Proof.
  intros Hsame.
  assert (forall s, attempt NewRequestWithContext clientDo c cfg s =
                    attempt NewRequestWithContext clientDo' c cfg s) as Hatt.
  { intros s.
    destruct (NewRequestWithContext (Method cfg) (URL cfg) (ReqBody cfg)) as [base|err] eqn:Hnew.
    - destruct (attempt_sends_dressed c cfg base Hnew) as [r [Hr Hsend]].
      rewrite !Hsend, (Hsame _ _ _ eq_refl Hr). reflexivity.
    - unfold attempt. rewrite Hnew. reflexivity. }
  unfold doRequest, retry.Do.
  rewrite (bounded_ext _ _ _ _ Hatt), (forever_ext _ _ _ Hatt). reflexivity.
Qed.
End ExecutorRequests.
Section ExpectedStatus.
Variable NewRequestWithContext : string -> string -> string -> Request + error.
Variable clientDo : nat -> Request -> Response + error.
Context {R : Type}.
Variable decodeResult : string -> R + error.
Variable decodeAPIError : string -> GitHubAPIError + error.

(** A result comes out of [DoRequest] only from a response whose body decodes
    and whose status is the expected one, when one is declared. *)
Lemma DoRequest_result fuel c cfg r :
  DoRequest NewRequestWithContext clientDo decodeResult decodeAPIError fuel c cfg =
    Some (Some (inl r)) ->
  exists rsp s,
    doRequest NewRequestWithContext clientDo fuel c cfg = Some (inl (Some rsp), s) /\
    (ExpectedStatus cfg = 0%Z \/ StatusCode rsp = ExpectedStatus cfg) /\
    decodeResult (Body rsp) = inl r.
Proof.
  unfold DoRequest.
  destruct (doRequest _ _ fuel c cfg) as [[[[rsp|]|err] s]|]; try discriminate.
  destruct (Z.eqb_spec (ExpectedStatus cfg) 0) as [Hzero|Hdeclared]; cbn.
  - destruct (decodeResult (Body rsp)) as [r'|] eqn:Hdec; [|discriminate].
    intros Heq. injection Heq as <-. eauto 6.
  - destruct (Z.eqb_spec (StatusCode rsp) (ExpectedStatus cfg)) as [Hst|Hst]; cbn.
    + destruct (decodeResult (Body rsp)) as [r'|] eqn:Hdec; [|discriminate].
      intros Heq. injection Heq as <-. eauto 6.
    + destruct (decodeAPIError (Body rsp)); discriminate.
Qed.

(** X4: with an expected status declared, [DoRequest] hands a result back
    only for a response of exactly that status whose body decodes; a
    response of another status becomes an error that carries the message of
    the platform's error envelope and the status, and its body is not
    decoded as a result.  So an expected status that is itself retried can
    never be met. *)
Theorem declared_status_is_enforced fuel c cfg :
  ExpectedStatus cfg <> 0%Z ->
  (forall r,
      DoRequest NewRequestWithContext clientDo decodeResult decodeAPIError fuel c cfg =
        Some (Some (inl r)) ->
      exists rsp s,
        doRequest NewRequestWithContext clientDo fuel c cfg = Some (inl (Some rsp), s) /\
        StatusCode rsp = ExpectedStatus cfg /\
        decodeResult (Body rsp) = inl r) /\
  (forall rsp s,
      doRequest NewRequestWithContext clientDo fuel c cfg = Some (inl (Some rsp), s) ->
      StatusCode rsp <> ExpectedStatus cfg ->
      exists err,
        DoRequest NewRequestWithContext clientDo decodeResult decodeAPIError fuel c cfg =
          Some (Some (inr err)) /\
        forall apiError,
          decodeAPIError (Body rsp) = inl apiError ->
          Error err = "GitHub API error: " ++ Message apiError ++
                      " (status: " ++ pretty (StatusCode rsp) ++ ")") /\
  (shouldRetry (ExpectedStatus cfg) = true ->
   forall r,
     DoRequest NewRequestWithContext clientDo decodeResult decodeAPIError fuel c cfg <>
       Some (Some (inl r))).
Proof.
  intros Hdeclared.
  assert (forall r,
      DoRequest NewRequestWithContext clientDo decodeResult decodeAPIError fuel c cfg =
        Some (Some (inl r)) ->
      exists rsp s,
        doRequest NewRequestWithContext clientDo fuel c cfg = Some (inl (Some rsp), s) /\
        StatusCode rsp = ExpectedStatus cfg /\
        decodeResult (Body rsp) = inl r) as Hmet.
  { intros r Hok. destruct (DoRequest_result fuel c cfg r Hok) as (rsp & s & Hexec & Hst & Hdec).
    exists rsp, s. destruct Hst; [contradiction|]. auto. }
  split; [exact Hmet|]. split.
  - intros rsp s Hexec Hst. unfold DoRequest. rewrite Hexec.
    destruct (Z.eqb_spec (ExpectedStatus cfg) 0); [contradiction|].
    destruct (Z.eqb_spec (StatusCode rsp) (ExpectedStatus cfg)); [contradiction|]. cbn.
    destruct (decodeAPIError (Body rsp)) as [apiError|e].
    + eexists. split; [reflexivity|]. intros a Ha. injection Ha as <-. reflexivity.
    + eexists. split; [reflexivity|]. discriminate.
  - intros Hretry r Hok.
    destruct (Hmet r Hok) as (rsp & s & Hexec & Hst & _).
    destruct (doRequest_response _ _ _ _ _ _ _ Hexec) as (rsp' & Heq & _ & Hcode).
    injection Heq as <-. congruence.
Qed.
End ExpectedStatus.
Section ExchangeFacts.
Variable rsaPrivateKey : Type.
Variable SignedString : RegisteredClaims -> rsaPrivateKey -> string + error.
Variable NewRequestWithContext : string -> string -> string -> Request + error.
Variable clientDo : nat -> Request -> Response + error.
Variable decodeAPIError : string -> GitHubAPIError + error.
Variable decodeToken : string -> InstallationTokenResponse + error.
Variable GitHubApp : Type.
Variable decodeApp : string -> GitHubApp + error.
Variable GitHubAppInstallation : Type.
Variable decodeInstallation : string -> GitHubAppInstallation + error.

Lemma NewNumericDate_floor t :
  (NewNumericDate t <= t < NewNumericDate t + Second)%Z.
Proof.
  unfold NewNumericDate.
  pose proof (Z.div_mod t Second ltac:(discriminate)) as Hdm.
  pose proof (Z.mod_pos_bound t Second ltac:(reflexivity)) as Hm. lia.
Qed.

Lemma NewNumericDate_add t k :
  NewNumericDate (t + k * Second) = (NewNumericDate t + k * Second)%Z.
Proof.
  unfold NewNumericDate. rewrite Z.div_add by discriminate. lia.
Qed.

(** X5: the assertion that [GenerateJWT] signs names the AppID as issuer and
    as subject, is issued at the whole second that holds [now], and expires
    exactly ten minutes (600 seconds) after that. *)
Theorem assertion_lives_ten_minutes now g :
  exists claims,
    GenerateJWT rsaPrivateKey SignedString now g = SignedString claims (privateKey _ g) /\
    Issuer claims = AppID (auth_config _ g) /\
    Subject claims = AppID (auth_config _ g) /\
    (IssuedAt claims <= now < IssuedAt claims + Second)%Z /\
    (IssuedAt claims mod Second = 0)%Z /\
    (claims_ExpiresAt claims = IssuedAt claims + 600 * Second)%Z.
Proof.
  eexists. split; [reflexivity|]. cbn.
  split; [reflexivity|]. split; [reflexivity|].
  split; [apply NewNumericDate_floor|]. split.
  - unfold NewNumericDate. apply Z.mod_mul. discriminate.
  - change (10 * Minute)%Z with (600 * Second)%Z. apply NewNumericDate_add.
Qed.

(** X6: [GetInstallationToken].  When signing fails nothing is asked of the
    transport and the signing error comes back, wrapped; a token comes back
    only from a response of status 201 to the POST on the access_tokens URL
    of the installation, made with the assertion as bearer token, and it is
    the decoded body field by field; every failure of the request is wrapped
    in [failed to get installation token]. *)
Theorem token_exchange_needs_201 fuel now g :
  (forall e,
      GenerateJWT rsaPrivateKey SignedString now g = inr e ->
      forall otherDo,
        GetInstallationToken rsaPrivateKey SignedString NewRequestWithContext otherDo
                             decodeAPIError decodeToken fuel now g =
          Some (Some (inr (wrapError "failed to generate JWT: " e "")))) /\
  (forall tok,
      GetInstallationToken rsaPrivateKey SignedString NewRequestWithContext clientDo
                           decodeAPIError decodeToken fuel now g = Some (Some (inl tok)) ->
      exists jwt rsp s tr,
        GenerateJWT rsaPrivateKey SignedString now g = inl jwt /\
        doRequest NewRequestWithContext clientDo fuel (httpClient _ g)
                  (tokenRequestConfig rsaPrivateKey g jwt) = Some (inl (Some rsp), s) /\
        StatusCode rsp = 201%Z /\
        decodeToken (Body rsp) = inl tr /\
        Token tok = tr_Token tr /\ ExpiresAt tok = tr_ExpiresAt tr /\
        RepositorySelection tok = tr_RepositorySelection tr) /\
  (forall err,
      GetInstallationToken rsaPrivateKey SignedString NewRequestWithContext clientDo
                           decodeAPIError decodeToken fuel now g = Some (Some (inr err)) ->
      exists inner,
        (err = wrapError "failed to generate JWT: " inner "" /\
         GenerateJWT rsaPrivateKey SignedString now g = inr inner) \/
        (err = wrapError "failed to get installation token: " inner "" /\
         exists jwt,
           GenerateJWT rsaPrivateKey SignedString now g = inl jwt /\
           DoRequest NewRequestWithContext clientDo decodeToken decodeAPIError
                     fuel (httpClient _ g) (tokenRequestConfig rsaPrivateKey g jwt) =
             Some (Some (inr inner)))).
Proof.
  unfold GetInstallationToken. split; [|split].
  - intros e -> otherDo. reflexivity.
  - intros tok. destruct (GenerateJWT _ _ now g) as [jwt|e]; [|discriminate].
    destruct (DoRequest _ _ _ _ fuel _ _) as [[[tr|err]|]|] eqn:Hdo; try discriminate.
    intros Heq. injection Heq as <-.
    destruct (DoRequest_result _ _ _ _ _ _ _ _ Hdo) as (rsp & s & Hexec & Hst & Hdec).
    exists jwt, rsp, s, tr. destruct Hst as [Hst|Hst]; [discriminate|]. cbn in Hst. auto 10.
  - intros err. destruct (GenerateJWT _ _ now g) as [jwt|e].
    + destruct (DoRequest _ _ _ _ fuel _ _) as [[[tr|inner]|]|] eqn:Hdo; try discriminate.
      intros Heq. injection Heq as <-. exists inner. right. eauto.
    + intros Heq. injection Heq as <-. exists e. left. auto.
Qed.

(** X7: the two reads, [GetAppInfo] and [GetInstallation], hand back what
    they decoded only from a response of status 200 to a GET on the URL of
    the app or of the installation; a response of another status, 201
    included, is a failure wrapped in the name of the read. *)
Theorem reads_need_200 fuel now g :
  (forall app,
      GetAppInfo rsaPrivateKey SignedString NewRequestWithContext clientDo
                 decodeAPIError GitHubApp decodeApp fuel now g = Some (Some (inl app)) ->
      exists jwt rsp s,
        GenerateJWT rsaPrivateKey SignedString now g = inl jwt /\
        doRequest NewRequestWithContext clientDo fuel (httpClient _ g)
                  (appRequestConfig rsaPrivateKey g jwt) = Some (inl (Some rsp), s) /\
        StatusCode rsp = 200%Z /\ decodeApp (Body rsp) = inl app) /\
  (forall installation,
      GetInstallation rsaPrivateKey SignedString NewRequestWithContext clientDo
                      decodeAPIError GitHubAppInstallation decodeInstallation fuel now g =
        Some (Some (inl installation)) ->
      exists jwt rsp s,
        GenerateJWT rsaPrivateKey SignedString now g = inl jwt /\
        doRequest NewRequestWithContext clientDo fuel (httpClient _ g)
                  (installationRequestConfig rsaPrivateKey g jwt) = Some (inl (Some rsp), s) /\
        StatusCode rsp = 200%Z /\ decodeInstallation (Body rsp) = inl installation) /\
  (forall jwt rsp s,
      GenerateJWT rsaPrivateKey SignedString now g = inl jwt ->
      StatusCode rsp <> 200%Z ->
      (doRequest NewRequestWithContext clientDo fuel (httpClient _ g)
                 (appRequestConfig rsaPrivateKey g jwt) = Some (inl (Some rsp), s) ->
       exists inner,
         GetAppInfo rsaPrivateKey SignedString NewRequestWithContext clientDo
                    decodeAPIError GitHubApp decodeApp fuel now g =
           Some (Some (inr (wrapError "failed to get app info: " inner "")))) /\
      (doRequest NewRequestWithContext clientDo fuel (httpClient _ g)
                 (installationRequestConfig rsaPrivateKey g jwt) = Some (inl (Some rsp), s) ->
       exists inner,
         GetInstallation rsaPrivateKey SignedString NewRequestWithContext clientDo
                         decodeAPIError GitHubAppInstallation decodeInstallation fuel now g =
           Some (Some (inr (wrapError "failed to get installation: " inner ""))))).
Proof.
  split; [|split].
  - unfold GetAppInfo. intros app.
    destruct (GenerateJWT _ _ now g) as [jwt|e]; [|discriminate].
    destruct (DoRequest _ _ _ _ fuel _ _) as [[[a|err]|]|] eqn:Hdo; try discriminate.
    intros Heq. injection Heq as <-.
    destruct (DoRequest_result _ _ _ _ _ _ _ _ Hdo) as (rsp & s & Hexec & Hst & Hdec).
    exists jwt, rsp, s. destruct Hst as [Hst|Hst]; [discriminate|]. cbn in Hst. auto.
  - unfold GetInstallation. intros installation.
    destruct (GenerateJWT _ _ now g) as [jwt|e]; [|discriminate].
    destruct (DoRequest _ _ _ _ fuel _ _) as [[[a|err]|]|] eqn:Hdo; try discriminate.
    intros Heq. injection Heq as <-.
    destruct (DoRequest_result _ _ _ _ _ _ _ _ Hdo) as (rsp & s & Hexec & Hst & Hdec).
    exists jwt, rsp, s. destruct Hst as [Hst|Hst]; [discriminate|]. cbn in Hst. auto.
  - intros jwt rsp s Hjwt Hst. split; intros Hexec.
    + unfold GetAppInfo, DoRequest. rewrite Hjwt, Hexec. cbn.
      destruct (Z.eqb_spec (StatusCode rsp) 200); [contradiction|]. cbn.
      destruct (decodeAPIError (Body rsp)); eexists; reflexivity.
    + unfold GetInstallation, DoRequest. rewrite Hjwt, Hexec. cbn.
      destruct (Z.eqb_spec (StatusCode rsp) 200); [contradiction|]. cbn.
      destruct (decodeAPIError (Body rsp)); eexists; reflexivity.
Qed.
End ExchangeFacts.

Lemma attempts_stay_under_the_ceiling_witness :
  exists r s,
    doRequest plainRequest (statusServer [500; 500]%Z 200) 3 (NewHTTPClient None) (getRequest 0) =
      Some (r, s) /\
    (1 <= tries s <= 3)%nat /\ (tries s - 1 <= sent s <= tries s)%nat.
Proof.
  apply (attempts_stay_under_the_ceiling plainRequest (statusServer [500; 500]%Z 200)
           3 (NewHTTPClient None) (getRequest 0)); cbn; lia.
Defined.

Lemma failures_have_three_causes_witness :
  exists why,
    wrapError "request failed after 3 attempts: " (RetryableError 503) "" =
      wrapError "request failed after 3 attempts: " (causeError why) "" /\
    match why with
    | notBuilt _ => 3%nat = (3 - 1)%nat
    | notSent _ => 3%nat = 3%nat
    | retryable code => shouldRetry code = true /\ 3%nat = 3%nat /\ 3%nat = 3%nat
    end.
Proof.
  refine (proj2 (failures_have_three_causes plainRequest (statusServer [] 503)
                   3 (NewHTTPClient None) (getRequest 0)
                   (wrapError "request failed after 3 attempts: " (RetryableError 503) "")
                   {| resp := None; tries := 3; sent := 3 |} _ eq_refl)).
  cbn. lia.
Defined.

Lemma only_dressed_requests_are_sent_witness :
  doRequest plainRequest headerCheckingServer 3 (NewHTTPClient None) tokenRequest =
  doRequest plainRequest (statusServer [] 200) 3 (NewHTTPClient None) tokenRequest.
Proof.
  apply only_dressed_requests_are_sent.
  intros n base r _ (_ & _ & _ & Hua & Hacc & Hauth & _).
  unfold headerCheckingServer, statusServer.
  rewrite Hua, Hacc, Hauth. cbn. destruct n; reflexivity.
Defined.

Lemma declared_status_is_enforced_witness :
  exists err,
    DoRequest plainRequest (statusServer [] 404) rawBody notFoundEnvelope
              3 (NewHTTPClient None) (getRequest 200) = Some (Some (inr err)) /\
    Error err = "GitHub API error: Not Found (status: 404)".
Proof.
  assert (ExpectedStatus (getRequest 200) <> 0%Z) as Hdeclared by (cbn; lia).
  assert (StatusCode {| StatusCode := 404; Body := "{}" |} <> ExpectedStatus (getRequest 200))
    as Hother by (cbn; lia).
  destruct (proj1 (proj2 (declared_status_is_enforced plainRequest (statusServer [] 404)
                            rawBody notFoundEnvelope 3 (NewHTTPClient None) (getRequest 200)
                            Hdeclared))
              {| StatusCode := 404; Body := "{}" |}
              {| resp := Some {| StatusCode := 404; Body := "{}" |}; tries := 1; sent := 1 |}
              eq_refl Hother) as [err [Hdo Hmsg]].
  exists err. split; [exact Hdo|]. exact (Hmsg _ eq_refl).
Defined.

Lemma token_exchange_needs_201_witness :
  GetInstallationToken unit failingSigner plainRequest tokenServer envelope sampleTokenDecoder
                       3 0 sampleAuth =
    Some (Some (inr (wrapError "failed to generate JWT: "
                       (errorString "crypto/rsa: message too long for RSA key size") ""))) /\
  exists jwt rsp s tr,
    GenerateJWT unit sampleSigner 0 sampleAuth = inl jwt /\
    doRequest plainRequest tokenServer 3 (httpClient _ sampleAuth)
              (tokenRequestConfig unit sampleAuth jwt) = Some (inl (Some rsp), s) /\
    StatusCode rsp = 201%Z /\
    sampleTokenDecoder (Body rsp) = inl tr /\
    Token tokenA = tr_Token tr /\ ExpiresAt tokenA = tr_ExpiresAt tr /\
    RepositorySelection tokenA = tr_RepositorySelection tr.
Proof.
  split.
  - exact (proj1 (token_exchange_needs_201 unit failingSigner plainRequest tokenServer envelope
                    sampleTokenDecoder 3 0 sampleAuth) _ eq_refl tokenServer).
  - exact (proj1 (proj2 (token_exchange_needs_201 unit sampleSigner plainRequest tokenServer
                           envelope sampleTokenDecoder 3 0 sampleAuth)) tokenA eq_refl).
Defined.

(** The token exchange and the reads on the sample server: the POST is
    answered with 201 and gives the token; the reads expect 200 and fail on
    the same answer. *)
Example exchange_on_the_sample_server :
  GetInstallationToken unit sampleSigner plainRequest tokenServer envelope sampleTokenDecoder
                       3 0 sampleAuth = Some (Some (inl tokenA)) /\
  URL (tokenRequestConfig unit sampleAuth "jwt.12345") =
    "https://api.github.com/app/installations/67890/access_tokens" /\
  exists inner,
    GetAppInfo unit sampleSigner plainRequest tokenServer notFoundEnvelope string rawBody
               3 0 sampleAuth =
      Some (Some (inr (wrapError "failed to get app info: " inner ""))) /\
    Error inner = "GitHub API error: Not Found (status: 201)".
Proof.
  split; [vm_compute; reflexivity|]. split; [reflexivity|].
  eexists. split; vm_compute; reflexivity.
Qed.
